(** * TikTokWsClient: the push-frame WebSocket client of src/lib/ws/lib/ws-client.ts

    A shallow embedding of the class [TikTokWsClient].  The object's fields
    and the part of the Node runtime it touches (interval timers, [once]
    listeners, handlers bound on connection objects, suspended [async]
    activations) form an explicit state; every method is a function in a
    small state-and-trace monad whose trace lists, in program order, the
    calls made on the transport and the events published to subscribers. *)

From Stdlib Require Import ZArith.
From Stdlib.Strings Require Import Byte.
From stdpp Require Import base strings list gmap.

(** ** Data *)

(** [Uint8Array] / [Buffer]: a sequence of bytes.  [Buffer.from(data)] copies
    its argument, so it is the identity on the contents. *)
Definition bytes : Type := list byte.

(** Object identities handed out by the runtime. *)
Definition WebSocketConnection : Type := nat.
Definition Timeout : Type := nat.
Definition Promise : Type := nat.

(** The value caught by [catch (err)]. *)
Definition Error : Type := string.

(** [http.RequestOptions]: passed through to the transport untouched. *)
Definition RequestOptions : Type := list (string * string).

(** [Message] of the websocket package: a tagged union on [type]. *)
Inductive WebSocketMessage : Type :=
  | Utf8Message (utf8Data : string)
  | BinaryMessage (binaryData : bytes).

(** Modelled from the spec: the declaration of [WebSocketParams] in
    '@/types/client' is not part of the sources; the spec's RoomParameters
    carry the room identifier read by [sendHeartbeat] next to the other
    query-string parameters. *)
Record WebSocketParams : Type := {
  room_id : string;
  query_params : list (string * string)
}.

(** Modelled from the spec: [CookieJar] of '@/lib/web/lib/cookie-jar' is not
    part of the sources; the client only reads its cookie string. *)
Record CookieJar : Type := { getCookieString : string }.

(** Modelled from the spec: the message types of '@/types' are not part of
    the sources; the heartbeat payload has the room identifier as its only
    field. *)
Record HeartbeatMessage : Type := { hb_roomId : string }.

(** Modelled from the spec: the room-enter payload of '@/types', with the ten
    fields the object literal of [switchRooms] sets. *)
Record WebcastImEnterRoomMessage : Type := {
  roomId : string;
  roomTag : string;
  liveRegion : string;
  liveId : string;
  identity : string;
  cursor : string;
  accountType : string;
  enterUniqueId : string;
  filterWelcomeMsg : string;
  isAnchorContinueKeepMsg : bool
}.

(** Modelled from the spec: the argument of [createBaseWebcastPushFrame] is a
    partial push frame ('@/types' is not part of the sources).  A key that is
    left out and a key set to [undefined] both read as [None]. *)
Module PushFrame.
Record t : Type := {
  logId : option string;
  payloadEncoding : option string;
  payloadType : option string;
  payload : option bytes;
  service : option string;
  method : option string;
  headers : option (gmap string string)
}.
End PushFrame.

(** Modelled from the spec: the structured sub-message of a decoded
    container, with the two attributes the client reads. *)
Record ProtoMessageFetchResult : Type := {
  needsAck : bool;
  internalExt : string
}.

(** Modelled from the spec: [DecodedWebcastPushFrame] of '@/types/client' is
    not part of the sources; a decoded container has an optional
    correlation id, a payload type and an optional fetch result. *)
Record DecodedWebcastPushFrame : Type := {
  logId : option string;
  payloadType : string;
  protoMessageFetchResult : option ProtoMessageFetchResult
}.

(** [EventMap]: the events subscribers can observe. *)
Inductive Event : Type :=
  | connect (connection : WebSocketConnection)
  | close_event
  | messageDecodingFailed (error : Error)
  | unknownResponse (message : WebSocketMessage)
  | protoMessageFetchResult_event (response : ProtoMessageFetchResult)
  | webSocketData (data : WebSocketMessage)
  | imEnteredRoom (decodedContainer : DecodedWebcastPushFrame).

(** What a handler does to the outside, in program order. *)
Inductive Effect : Type :=
  | ClientConnect (url protocols origin : string)
      (headers : gmap string string) (options : RequestOptions)
      (* this.connect(url, protocols, origin, headers, options) *)
  | ConnSendBytes (c : WebSocketConnection) (data : bytes)
      (* connection.sendBytes(data) *)
  | ConnClose (c : WebSocketConnection) (code : Z)
      (* connection.close(code) *)
  | Emit (e : Event)
      (* this.emit(e) *)
  | Resolve (p : Promise).
      (* resolve() of the promise returned by close() *)

(** ** External collaborators *)

(** The codec of '@/types' and '@/lib/utilities'.  An encoder stands for
    [encode(..)] followed by [finish()]; the decoder either throws or yields
    a container. *)
Class Codec : Type := {
  HeartbeatMessage_encode : HeartbeatMessage -> bytes;
  WebcastImEnterRoomMessage_encode : WebcastImEnterRoomMessage -> bytes;
  createBaseWebcastPushFrame : PushFrame.t -> bytes;
  deserializeWebSocketMessage : bytes -> Error + DecodedWebcastPushFrame
}.

(** The platform and the constants of '@/lib/config'. *)
Class Platform : Type := {
  (* new TextEncoder().encode: the UTF-8 bytes of a string *)
  textEncoder_encode : string -> bytes;
  (* `${new URLSearchParams(params)}` *)
  URLSearchParams_toString : WebSocketParams -> string;
  DEFAULT_WS_CLIENT_PARAMS_APPEND_PARAMETER : string;
  TIKTOK_HOST_WEB : string
}.

(** ** State *)

(** The fields of the class.  The heartbeat period, a JavaScript number, is
    taken to be a whole number of milliseconds. *)
Record TikTokWsClient : Type := {
  connection : option WebSocketConnection;
  pingInterval : option Timeout;
  wsHeaders : gmap string string;
  wsUrlWithParams : string;
  webSocketParams : WebSocketParams;
  webSocketPingIntervalMs : Z
}.

(** The part of the Node runtime the class acts on. *)
Record Runtime : Type := {
  (* active setInterval timers, handle |-> the period it runs with, in ms *)
  intervals : gmap Timeout Z;
  nextTimeout : Timeout;
  (* listeners added by this.once('close', ..), oldest first *)
  onceClose : list Promise;
  nextPromise : Promise;
  (* connection objects on which onMessage / onDisconnect are bound *)
  bound : list WebSocketConnection;
  (* onMessage activations suspended at the await, with their binaryData *)
  awaiting : list bytes
}.

Record World : Type := { this : TikTokWsClient; runtime : Runtime }.

Definition set_connection (v : option WebSocketConnection) (o : TikTokWsClient)
  : TikTokWsClient :=
  {| connection := v; pingInterval := pingInterval o;
     wsHeaders := wsHeaders o; wsUrlWithParams := wsUrlWithParams o;
     webSocketParams := webSocketParams o;
     webSocketPingIntervalMs := webSocketPingIntervalMs o |}.

Definition set_pingInterval (v : option Timeout) (o : TikTokWsClient)
  : TikTokWsClient :=
  {| connection := connection o; pingInterval := v;
     wsHeaders := wsHeaders o; wsUrlWithParams := wsUrlWithParams o;
     webSocketParams := webSocketParams o;
     webSocketPingIntervalMs := webSocketPingIntervalMs o |}.

Definition on_this (f : TikTokWsClient -> TikTokWsClient) (w : World) : World :=
  {| this := f (this w); runtime := runtime w |}.

Definition on_runtime (f : Runtime -> Runtime) (w : World) : World :=
  {| this := this w; runtime := f (runtime w) |}.

(** ** The handler monad: state passing with an output trace *)

Definition M (A : Type) : Type := World -> A * World * list Effect.

Definition ret {A} (a : A) : M A := fun w => (a, w, []).

Definition bind {A B} (m : M A) (k : A -> M B) : M B :=
  fun w =>
    let '(a, w1, t1) := m w in
    let '(b, w2, t2) := k a w1 in
    (b, w2, t1 ++ t2).

Definition get : M World := fun w => (w, w, []).
Definition modify (f : World -> World) : M unit := fun w => (tt, f w, []).
Definition perform (e : Effect) : M unit := fun w => (tt, w, [e]).

Declare Scope handler_scope.
Delimit Scope handler_scope with handler.
Notation "'let!' x ':=' m 'in' k" := (bind m (fun x => k))
  (at level 10, x name, k at level 200) : handler_scope.
Notation "'do!' m 'in' k" := (bind m (fun _ => k))
  (at level 10, k at level 200) : handler_scope.
Local Open Scope handler_scope.

(** Result, final state and trace of a handler. *)
Definition result {A} (r : A * World * list Effect) : A := fst (fst r).
Definition world {A} (r : A * World * list Effect) : World := snd (fst r).
Definition trace {A} (r : A * World * list Effect) : list Effect := snd r.

(** ** Runtime primitives *)

Definition add_interval (t : Timeout) (ms : Z) (r : Runtime) : Runtime :=
  {| intervals := <[t := ms]> (intervals r); nextTimeout := S t;
     onceClose := onceClose r; nextPromise := nextPromise r;
     bound := bound r; awaiting := awaiting r |}.

Definition remove_interval (t : Timeout) (r : Runtime) : Runtime :=
  {| intervals := delete t (intervals r); nextTimeout := nextTimeout r;
     onceClose := onceClose r; nextPromise := nextPromise r;
     bound := bound r; awaiting := awaiting r |}.

Definition set_onceClose (l : list Promise) (r : Runtime) : Runtime :=
  {| intervals := intervals r; nextTimeout := nextTimeout r;
     onceClose := l; nextPromise := nextPromise r;
     bound := bound r; awaiting := awaiting r |}.

Definition set_nextPromise (p : Promise) (r : Runtime) : Runtime :=
  {| intervals := intervals r; nextTimeout := nextTimeout r;
     onceClose := onceClose r; nextPromise := p;
     bound := bound r; awaiting := awaiting r |}.

Definition set_bound (l : list WebSocketConnection) (r : Runtime) : Runtime :=
  {| intervals := intervals r; nextTimeout := nextTimeout r;
     onceClose := onceClose r; nextPromise := nextPromise r;
     bound := l; awaiting := awaiting r |}.

Definition set_awaiting (l : list bytes) (r : Runtime) : Runtime :=
  {| intervals := intervals r; nextTimeout := nextTimeout r;
     onceClose := onceClose r; nextPromise := nextPromise r;
     bound := bound r; awaiting := l |}.

(** The longest period a Node timer accepts, [2^31 - 1] ms. *)
Definition TIMEOUT_MAX : Z := 2147483647.

(** The period Node gives a timer: the requested one when it lies between 1
    and [TIMEOUT_MAX], and 1 ms otherwise. *)
Definition timer_period (ms : Z) : Z :=
  if ((1 <=? ms) && (ms <=? TIMEOUT_MAX))%Z then ms else 1%Z.

(** [setInterval(cb, ms)]: the only callback the class ever schedules is
    [() => this.sendHeartbeat()], so a timer is its handle and the period it
    runs with. *)
Definition setInterval (ms : Z) : M Timeout :=
  fun w =>
    let t := nextTimeout (runtime w) in
    (t, on_runtime (add_interval t (timer_period ms)) w, []).

(** [clearInterval(handle)]; a [null] handle is ignored. *)
Definition clearInterval (handle : option Timeout) : M unit :=
  match handle with
  | Some t => modify (on_runtime (remove_interval t))
  | None => ret tt
  end.

(** [this.emit(e)]: the event reaches the subscribers; on 'close' the
    listeners added with [once] by [close()] then run, oldest first, each
    removed as it runs. *)
Definition emit (e : Event) : M unit :=
  do! perform (Emit e) in
  match e with
  | close_event =>
      let! w := get in
      do! modify (on_runtime (set_onceClose [])) in
      fun w' => (tt, w', Resolve <$> onceClose (runtime w))
  | _ => ret tt
  end.

(** JavaScript truthiness of an optional string: [undefined] and the empty
    string are falsy. *)
Definition truthy (o : option string) : bool :=
  match o with
  | Some (String _ _) => true
  | _ => false
  end.

(** ** The class *)

Section TikTokWsClient.
Context {codec : Codec} {platform : Platform}.

(** [{ Cookie: cookieJar.getCookieString(), ...(webSocketHeaders || {}) }]:
    the spread copies the caller's entries over the literal's, so on a
    common key the spread entry wins (stdpp's union prefers its left
    operand). *)
Definition headers_literal (cookieJar : CookieJar)
    (webSocketHeaders : option (gmap string string)) : gmap string string :=
  match webSocketHeaders with Some h => h | None => ∅ end
    ∪ {[ "Cookie" := getCookieString cookieJar ]}.

Definition constructor (wsUrl : string) (cookieJar : CookieJar)
    (webSocketParams : WebSocketParams)
    (webSocketHeaders : option (gmap string string))
    (webSocketOptions : RequestOptions)
    (webSocketPingIntervalMs : option Z) : unit * World * list Effect :=
  let wsUrlWithParams :=
    wsUrl +:+ "?" +:+ URLSearchParams_toString webSocketParams
          +:+ DEFAULT_WS_CLIENT_PARAMS_APPEND_PARAMETER in
  let wsHeaders := headers_literal cookieJar webSocketHeaders in
  let o :=
    {| connection := None; pingInterval := None;
       wsHeaders := wsHeaders; wsUrlWithParams := wsUrlWithParams;
       webSocketParams := webSocketParams;
       webSocketPingIntervalMs := default 10000%Z webSocketPingIntervalMs |} in
  let r :=
    {| intervals := ∅; nextTimeout := 0; onceClose := []; nextPromise := 0;
       bound := []; awaiting := [] |} in
  (tt, {| this := o; runtime := r |},
   [ClientConnect wsUrlWithParams "" ("https://" +:+ TIKTOK_HOST_WEB)
      wsHeaders webSocketOptions]).

Definition sendBytes (data : bytes) : M bool :=
  let! w := get in
  match connection (this w) with
  | Some c =>
      do! perform (ConnSendBytes c data) in
      ret true
  | None => ret false
  end.

(** The object literal [sendHeartbeat] passes to
    [createBaseWebcastPushFrame]. *)
Definition heartbeatFrame (room_id : string) : PushFrame.t :=
  {| PushFrame.logId := None;
     PushFrame.payloadEncoding := Some "pb";
     PushFrame.payloadType := Some "hb";
     PushFrame.payload :=
       Some (HeartbeatMessage_encode {| hb_roomId := room_id |});
     PushFrame.service := None;
     PushFrame.method := None;
     PushFrame.headers := Some ∅ |}.

Definition sendHeartbeat : M unit :=
  let! w := get in
  let room_id := room_id (webSocketParams (this w)) in
  let webcastPushFrame := createBaseWebcastPushFrame (heartbeatFrame room_id) in
  do! sendBytes webcastPushFrame in
  ret tt.

Definition onConnect (wsConnection : WebSocketConnection) : M unit :=
  do! sendHeartbeat in
  do! modify (on_this (set_connection (Some wsConnection))) in
  let! w := get in
  let! t := setInterval (webSocketPingIntervalMs (this w)) in
  do! modify (on_this (set_pingInterval (Some t))) in
  (* this.connection.on('message', ..); this.connection.on('close', ..) *)
  modify (on_runtime (fun r => set_bound (wsConnection :: bound r) r)).

Definition onDisconnect : M unit :=
  let! w := get in
  do! clearInterval (pingInterval (this w)) in
  do! modify (on_this (set_pingInterval None)) in
  do! modify (on_this (set_connection None)) in
  emit close_event.

(** The message the object literal of [switchRooms] describes. *)
Definition imEnterRoomMessage (roomId : string) : WebcastImEnterRoomMessage :=
  {| roomId := roomId;
     roomTag := "";
     liveRegion := "";
     liveId := "12";
     identity := "audience";
     cursor := "";
     accountType := "0";
     enterUniqueId := "";
     filterWelcomeMsg := "0";
     isAnchorContinueKeepMsg := false |}.

Definition enterRoomFrame (roomId : string) : PushFrame.t :=
  {| PushFrame.logId := None;
     PushFrame.payloadEncoding := Some "pb";
     PushFrame.payloadType := Some "im_enter_room";
     PushFrame.payload :=
       Some (WebcastImEnterRoomMessage_encode (imEnterRoomMessage roomId));
     PushFrame.service := None;
     PushFrame.method := None;
     PushFrame.headers := None |}.

Definition switchRooms (roomId : string) : M unit :=
  let webcastPushFrame := createBaseWebcastPushFrame (enterRoomFrame roomId) in
  do! sendBytes webcastPushFrame in
  ret tt.

Definition ackFrame (logId : option string) (internalExt : string)
  : PushFrame.t :=
  {| PushFrame.logId := logId;
     PushFrame.payloadEncoding := Some "pb";
     PushFrame.payloadType := Some "ack";
     PushFrame.payload := Some (textEncoder_encode internalExt);
     PushFrame.service := None;
     PushFrame.method := None;
     PushFrame.headers := None |}.

(** [sendAck({ logId, protoMessageFetchResult: { internalExt } })]: the two
    arguments are the components the parameter pattern binds. *)
Definition sendAck (logId : option string) (internalExt : string) : M unit :=
  if negb (truthy logId) then ret tt
  else
    let webcastPushFrame := createBaseWebcastPushFrame (ackFrame logId internalExt) in
    do! sendBytes webcastPushFrame in
    ret tt.

(** [onMessage] up to its [await]: [Some binaryData] when the activation
    suspends on [deserializeWebSocketMessage(message.binaryData)], [None]
    when it has returned. *)
Definition onMessage_begin (message : WebSocketMessage) : M (option bytes) :=
  do! emit (webSocketData message) in
  match message with
  | BinaryMessage binaryData => ret (Some binaryData)
  | Utf8Message _ =>
      do! emit (unknownResponse message) in
      ret None
  end.

(** [onMessage] from its [await] on, when no subscriber throws while an
    event is delivered to it: the body of the [try] when the decode promise
    fulfils, the [catch] when it rejects.  [onMessage_resume_with] below is
    the continuation for subscribers that may throw. *)
Definition onMessage_resume (decoded : Error + DecodedWebcastPushFrame)
  : M unit :=
  match decoded with
  | inr decodedContainer =>
      do! match protoMessageFetchResult decodedContainer with
          | Some fetchResult =>
              do! (if needsAck fetchResult
                   then sendAck (logId decodedContainer) (internalExt fetchResult)
                   else ret tt) in
              emit (protoMessageFetchResult_event fetchResult)
          | None => ret tt
          end in
      if String.eqb (payloadType decodedContainer) "im_enter_room_resp"
      then emit (imEnteredRoom decodedContainer)
      else ret tt
  | inl err => emit (messageDecodingFailed err)
  end.

(** What the subscribers of the events published inside the [try] of
    [onMessage] do: the exception, if any, that one of them throws when the
    event is delivered.  [emit] calls its listeners synchronously, so such
    an exception leaves [emit] and reaches the [catch].  The codec and the
    transport are taken not to throw there. *)
Definition Subscribers : Type := Event -> option Error.

(** Subscribers that never throw. *)
Definition quiet : Subscribers := fun _ => None.

(** [this.emit(e)] inside the [try]: the event is published, and what a
    subscriber throws, if anything, is handed on. *)
Definition emit_in_try (subscribers : Subscribers) (e : Event)
  : M (option Error) :=
  do! emit e in
  ret (subscribers e).

(** The body of the [try] once the container is decoded; the result is the
    exception that left it, if any. *)
Definition onMessage_try (subscribers : Subscribers)
    (decodedContainer : DecodedWebcastPushFrame) : M (option Error) :=
  let! thrown :=
    match protoMessageFetchResult decodedContainer with
    | Some fetchResult =>
        do! (if needsAck fetchResult
             then sendAck (logId decodedContainer) (internalExt fetchResult)
             else ret tt) in
        emit_in_try subscribers (protoMessageFetchResult_event fetchResult)
    | None => ret None
    end in
  match thrown with
  | Some err => ret (Some err)
  | None =>
      if String.eqb (payloadType decodedContainer) "im_enter_room_resp"
      then emit_in_try subscribers (imEnteredRoom decodedContainer)
      else ret None
  end.

(** [onMessage] from its [await] on, with subscribers that may throw: a
    rejected decode and an exception leaving the [try] both end in the
    [catch], which publishes the error. *)
Definition onMessage_resume_with (subscribers : Subscribers)
    (decoded : Error + DecodedWebcastPushFrame) : M unit :=
  let! thrown :=
    match decoded with
    | inr decodedContainer => onMessage_try subscribers decodedContainer
    | inl err => ret (Some err)
    end in
  match thrown with
  | Some err => emit (messageDecodingFailed err)
  | None => ret tt
  end.

(** [onMessage] when nothing else runs between the [await] and its
    continuation. *)
Definition onMessage (message : WebSocketMessage) : M unit :=
  let! suspended := onMessage_begin message in
  match suspended with
  | Some binaryData => onMessage_resume (deserializeWebSocketMessage binaryData)
  | None => ret tt
  end.

Definition close : M Promise :=
  let! w := get in
  let p := nextPromise (runtime w) in
  do! modify (on_runtime (set_nextPromise (S p))) in
  (* this.once('close', () => resolve()) *)
  do! modify (on_runtime (fun r => set_onceClose (onceClose r ++ [p]) r)) in
  let! w := get in
  do! match connection (this w) with
      | Some c => perform (ConnClose c 1000)
      | None => perform (Resolve p)
      end in
  ret p.

End TikTokWsClient.

(** ** The event loop

    Handlers run one at a time, each to completion or to its [await].  What
    the environment can make happen is an [Input]; an input nothing is
    registered for does nothing. *)

Inductive Input : Type :=
  | TransportConnect (c : WebSocketConnection)
      (* the base client emits 'connect' with a connection object *)
  | ConnMessage (c : WebSocketConnection) (message : WebSocketMessage)
      (* connection c emits 'message' *)
  | ConnClosed (c : WebSocketConnection)
      (* connection c emits 'close'; it emits nothing afterwards *)
  | DecodeSettled (i : nat)
      (* the decode awaited by the i-th suspended activation settles *)
  | IntervalFired (t : Timeout)
      (* the period of timer t elapses *)
  | CallClose
  | CallSwitchRooms (roomId : string)
  | CallSendBytes (data : bytes).

Section EventLoop.
Context {codec : Codec} {platform : Platform}.

Definition step (i : Input) : M unit :=
  match i with
  | TransportConnect c => onConnect c
  | ConnMessage c message =>
      let! w := get in
      if bool_decide (c ∈ bound (runtime w)) then
        let! suspended := onMessage_begin message in
        match suspended with
        | Some binaryData =>
            modify (on_runtime (fun r => set_awaiting (awaiting r ++ [binaryData]) r))
        | None => ret tt
        end
      else ret tt
  | ConnClosed c =>
      let! w := get in
      if bool_decide (c ∈ bound (runtime w)) then
        do! modify (on_runtime (fun r =>
               set_bound (filter (fun c' => c' ≠ c) (bound r)) r)) in
        onDisconnect
      else ret tt
  | DecodeSettled i =>
      let! w := get in
      match awaiting (runtime w) !! i with
      | Some binaryData =>
          do! modify (on_runtime (fun r => set_awaiting (delete i (awaiting r)) r)) in
          onMessage_resume (deserializeWebSocketMessage binaryData)
      | None => ret tt
      end
  | IntervalFired t =>
      let! w := get in
      match intervals (runtime w) !! t with
      | Some _ => sendHeartbeat
      | None => ret tt
      end
  | CallClose => do! close in ret tt
  | CallSwitchRooms roomId => switchRooms roomId
  | CallSendBytes data => do! sendBytes data in ret tt
  end.

Fixpoint run (inputs : list Input) : M unit :=
  match inputs with
  | [] => ret tt
  | i :: rest => do! step i in run rest
  end.

(** The event loop with subscribers that may throw inside the [try] of
    [onMessage]; [step] and [run] are the case of [quiet] subscribers. *)
Definition step_with (subscribers : Subscribers) (i : Input) : M unit :=
  match i with
  | DecodeSettled n =>
      let! w := get in
      match awaiting (runtime w) !! n with
      | Some binaryData =>
          do! modify (on_runtime (fun r => set_awaiting (delete n (awaiting r)) r)) in
          onMessage_resume_with subscribers
            (deserializeWebSocketMessage binaryData)
      | None => ret tt
      end
  | _ => step i
  end.

Fixpoint run_with (subscribers : Subscribers) (inputs : list Input) : M unit :=
  match inputs with
  | [] => ret tt
  | i :: rest => do! step_with subscribers i in run_with subscribers rest
  end.

End EventLoop.

(** ** Reading traces *)

(** Inputs other than the transport's 'connect' event. *)
Definition is_TransportConnect (i : Input) : bool :=
  match i with
  | TransportConnect _ => true
  | _ => false
  end.

Definition is_CallClose (i : Input) : bool :=
  match i with
  | CallClose => true
  | _ => false
  end.

(** The fields the constructor computes from its arguments. *)
Definition configuration (o : TikTokWsClient)
  : gmap string string * string * WebSocketParams * Z :=
  (wsHeaders o, wsUrlWithParams o, webSocketParams o, webSocketPingIntervalMs o).

(** How the two handles, the timers, the bound connections and the pending
    completions of a client hang together. *)
Definition consistent (w : World) : Prop :=
  (connection (this w) = None <-> pingInterval (this w) = None)
  /\ (forall t, pingInterval (this w) = Some t ->
        intervals (runtime w) !! t
        = Some (timer_period (webSocketPingIntervalMs (this w))))
  /\ (forall t, is_Some (intervals (runtime w) !! t) -> t < nextTimeout (runtime w))
  /\ (forall c, connection (this w) = Some c -> In c (bound (runtime w)))
  /\ Forall (fun p => p < nextPromise (runtime w)) (onceClose (runtime w)).

Section Provenance.
Context {codec : Codec} {platform : Platform}.

(** Where a transmitted byte sequence can come from, for a run of [inputs]
    started in [w]: the connection is the handle held in [w] or one the
    transport delivered during the run, and the bytes are a heartbeat for
    the room in [w], the ack of a received message that asks for one, a
    room-enter frame asked for with [switchRooms], or bytes given to
    [sendBytes]. *)
Definition accounted (w : World) (inputs : list Input)
    (cd : WebSocketConnection * bytes) : Prop :=
  (connection (this w) = Some cd.1 \/ In (TransportConnect cd.1) inputs)
  /\ (cd.2 = createBaseWebcastPushFrame
               (heartbeatFrame (room_id (webSocketParams (this w))))
      \/ (exists binaryData d r,
            (In binaryData (awaiting (runtime w))
             \/ exists c, In (ConnMessage c (BinaryMessage binaryData)) inputs)
            /\ deserializeWebSocketMessage binaryData = inr d
            /\ protoMessageFetchResult d = Some r
            /\ needsAck r = true
            /\ truthy (logId d) = true
            /\ cd.2 = createBaseWebcastPushFrame
                        (ackFrame (logId d) (internalExt r)))
      \/ (exists roomId,
            In (CallSwitchRooms roomId) inputs
            /\ cd.2 = createBaseWebcastPushFrame (enterRoomFrame roomId))
      \/ In (CallSendBytes cd.2) inputs).

(** Where a published event can come from, for a run of [inputs] started
    in [w] with the given subscribers: a message or close event of a
    connection, or the handling of a binary message that was pending in [w]
    or received during the run.  A decoding-failed event carries either the
    error of a failed decode or what a subscriber threw when the
    fetch-result or entered-room event of a decoded message was delivered.
    The class itself never publishes 'connect'. *)
Definition announced (subscribers : Subscribers) (w : World)
    (inputs : list Input) (ev : Event) : Prop :=
  let received binaryData :=
    In binaryData (awaiting (runtime w))
    \/ exists c, In (ConnMessage c (BinaryMessage binaryData)) inputs in
  match ev with
  | connect _ => False
  | close_event => exists c, In (ConnClosed c) inputs
  | webSocketData m => exists c, In (ConnMessage c m) inputs
  | unknownResponse m =>
      (exists s, m = Utf8Message s) /\ exists c, In (ConnMessage c m) inputs
  | messageDecodingFailed err =>
      exists binaryData,
        received binaryData
        /\ (deserializeWebSocketMessage binaryData = inl err
            \/ exists d,
                 deserializeWebSocketMessage binaryData = inr d
                 /\ ((exists r, protoMessageFetchResult d = Some r
                                /\ subscribers (protoMessageFetchResult_event r)
                                   = Some err)
                     \/ (payloadType d = "im_enter_room_resp"
                         /\ subscribers (imEnteredRoom d) = Some err)))
  | protoMessageFetchResult_event r =>
      exists binaryData d,
        received binaryData
        /\ deserializeWebSocketMessage binaryData = inr d
        /\ protoMessageFetchResult d = Some r
  | imEnteredRoom d =>
      exists binaryData,
        received binaryData
        /\ deserializeWebSocketMessage binaryData = inr d
        /\ payloadType d = "im_enter_room_resp"
  end.

End Provenance.

(** How often the resolver of completion [p] is called in a trace. *)
Definition resolutions (p : Promise) (t : list Effect) : nat :=
  length (List.filter
            (fun e => match e with Resolve q => Nat.eqb q p | _ => false end) t).

(** The byte sequences handed to [connection.sendBytes], each with the
    connection it went to, in order. *)
Definition sent (t : list Effect) : list (WebSocketConnection * bytes) :=
  omap (fun e => match e with ConnSendBytes c data => Some (c, data) | _ => None end) t.

(** The events published with [emit], in order. *)
Definition emitted (t : list Effect) : list Event :=
  omap (fun e => match e with Emit ev => Some ev | _ => None end) t.

(** The [connection.close] requests, in order. *)
Definition close_requests (t : list Effect) : list (WebSocketConnection * Z) :=
  omap (fun e => match e with ConnClose c code => Some (c, code) | _ => None end) t.

(** [a] occurs in [t] strictly before an occurrence of [b]. *)
Definition precedes (a b : Effect) (t : list Effect) : Prop :=
  exists t1 t2 t3, t = t1 ++ a :: t2 ++ b :: t3.

(** Every occurrence of [b] in [t] has an occurrence of [a] before it. *)
Definition only_after (a b : Effect) (t : list Effect) : Prop :=
  forall t1 t2, t = t1 ++ b :: t2 -> In a t1.

(** ** A sample environment, for concrete runs *)

Definition bytes_of_string (s : string) : bytes := String.list_byte_of_string s.

Definition sample_fetchResult : ProtoMessageFetchResult :=
  {| needsAck := true; internalExt := "abc" |}.

Definition sample_container : DecodedWebcastPushFrame :=
  {| logId := Some "L1"; payloadType := "msg";
     protoMessageFetchResult := Some sample_fetchResult |}.

Definition sample_entered : DecodedWebcastPushFrame :=
  {| logId := Some "L2"; payloadType := "im_enter_room_resp";
     protoMessageFetchResult := Some sample_fetchResult |}.

Definition sample_no_logId : DecodedWebcastPushFrame :=
  {| logId := None; payloadType := "msg";
     protoMessageFetchResult := Some sample_fetchResult |}.

(** A stand-in codec: frames are written as their type, correlation id and
    payload; three one-byte messages decode to the sample containers and
    every other input is malformed. *)
#[local] Instance sample_codec : Codec := {|
  HeartbeatMessage_encode m := bytes_of_string (hb_roomId m);
  WebcastImEnterRoomMessage_encode m :=
    bytes_of_string (roomId m +:+ "/" +:+ liveId m +:+ "/" +:+ identity m);
  createBaseWebcastPushFrame f :=
    bytes_of_string (default "msg" (PushFrame.payloadType f)) ++ [x3a]
      ++ bytes_of_string (default "0" (PushFrame.logId f)) ++ [x3a]
      ++ default [] (PushFrame.payload f);
  deserializeWebSocketMessage data :=
    match data with
    | [x01] => inr sample_container
    | [x02] => inr sample_entered
    | [x03] => inr sample_no_logId
    | _ => inl "malformed"
    end
|}.

#[local] Instance sample_platform : Platform := {|
  textEncoder_encode := bytes_of_string;
  URLSearchParams_toString p :=
    "room_id=" +:+ room_id p;
  DEFAULT_WS_CLIENT_PARAMS_APPEND_PARAMETER := "&version_code=270000";
  TIKTOK_HOST_WEB := "www.tiktok.com"
|}.

(** Subscribers of which the one listening for fetch results throws. *)
Definition sample_throwing : Subscribers :=
  fun ev =>
    match ev with
    | protoMessageFetchResult_event _ => Some "boom"
    | _ => None
    end.

Definition sample_params : WebSocketParams :=
  {| room_id := "123"; query_params := [] |}.

(** A client fresh out of its constructor, room "123", default period. *)
Definition sample_fresh : World :=
  world (constructor "wss://example.invalid/im" {| getCookieString := "sid=1" |}
           sample_params None [] None).

(** The same client once the transport has connected it to connection 7. *)
Definition sample_connected : World :=
  world (onConnect 7 sample_fresh).

(** * Properties *)

(** Unfolds the handlers and the monad down to tuples. *)
Ltac unfold_handlers :=
  unfold onMessage, onMessage_begin, onMessage_resume, onConnect, onDisconnect,
    close, switchRooms, sendAck, sendHeartbeat, sendBytes, emit, setInterval,
    clearInterval, bind, ret, get, modify, perform, result, world, trace in *;
  cbn [fst snd this runtime on_this on_runtime set_connection set_pingInterval
       connection pingInterval] in *.

Section Sending.
Context {codec : Codec} {platform : Platform}.

(** [sendBytes] in one equation. *)
Lemma sendBytes_eq (data : bytes) (w : World) :
  sendBytes data w =
  match connection (this w) with
  | Some c => (true, w, [ConnSendBytes c data])
  | None => (false, w, [])
  end.
Proof. unfold_handlers. destruct (connection (this w)); reflexivity. Qed.

(** C9: [sendBytes(data)] returns false, with the client unchanged and
    nothing handed to the transport, when the connection handle is null;
    otherwise it hands exactly [data] to the active connection and returns
    true.  The function is total, so no fault is raised in either case. *)
Theorem sendBytes_reports_connection (data : bytes) (w : World) :
  result (sendBytes data w) = bool_decide (is_Some (connection (this w)))
  /\ world (sendBytes data w) = w
  /\ trace (sendBytes data w) =
     match connection (this w) with
     | Some c => [ConnSendBytes c data]
     | None => []
     end.
Proof.
  rewrite sendBytes_eq. destruct (connection (this w)) as [c|]; done.
Qed.

Lemma sendHeartbeat_eq (w : World) :
  sendHeartbeat w =
  (tt, w,
   match connection (this w) with
   | Some c =>
       [ConnSendBytes c
          (createBaseWebcastPushFrame
             (heartbeatFrame (room_id (webSocketParams (this w)))))]
   | None => []
   end).
Proof. unfold_handlers. destruct (connection (this w)); reflexivity. Qed.

Lemma switchRooms_eq (roomId : string) (w : World) :
  switchRooms roomId w =
  (tt, w,
   match connection (this w) with
   | Some c => [ConnSendBytes c (createBaseWebcastPushFrame (enterRoomFrame roomId))]
   | None => []
   end).
Proof. unfold_handlers. destruct (connection (this w)); reflexivity. Qed.

Lemma sendAck_eq (logId : option string) (internalExt : string) (w : World) :
  sendAck logId internalExt w =
  (tt, w,
   match connection (this w) with
   | Some c =>
       if truthy logId
       then [ConnSendBytes c (createBaseWebcastPushFrame (ackFrame logId internalExt))]
       else []
   | None => []
   end).
Proof.
  unfold_handlers.
  destruct (truthy logId); cbn; destruct (connection (this w)); reflexivity.
Qed.

Lemma onDisconnect_trace (w : World) :
  trace (onDisconnect w) =
  Emit close_event :: (Resolve <$> onceClose (runtime w)).
Proof. unfold_handlers. destruct (pingInterval (this w)); reflexivity. Qed.

End Sending.

Section Framing.
Context {codec : Codec} {platform : Platform}.

(** C2, as amended: every outbound frame the client builds - heartbeat,
    ack and room-enter - carries payloadEncoding equal to "pb", and every
    byte sequence the three senders hand to the connection is the encoding
    of such a frame. *)
Theorem outbound_frames_payloadEncoding_pb
    (room roomId internalExt : string) (logId : option string) (w : World) :
  PushFrame.payloadEncoding (heartbeatFrame room) = Some "pb"
  /\ PushFrame.payloadEncoding (ackFrame logId internalExt) = Some "pb"
  /\ PushFrame.payloadEncoding (enterRoomFrame roomId) = Some "pb"
  /\ Forall
       (fun cd => exists f, cd.2 = createBaseWebcastPushFrame f
                            /\ PushFrame.payloadEncoding f = Some "pb")
       (sent (trace (sendHeartbeat w))
          ++ sent (trace (sendAck logId internalExt w))
          ++ sent (trace (switchRooms roomId w))).
Proof.
  repeat split.
  rewrite sendHeartbeat_eq, sendAck_eq, switchRooms_eq. unfold trace; cbn [snd].
  destruct (connection (this w)) as [c|]; [|constructor].
  destruct (truthy logId); cbn; repeat constructor; cbn; eauto.
Qed.

(** C8, as amended: for every roomId, [switchRooms(roomId)] hands the
    connection exactly one frame when the connection handle is set, and
    none when it is null; the frame has payloadType im_enter_room and a
    payload encoding roomId = the argument, liveId "12", identity
    "audience", accountType "0", filterWelcomeMsg "0",
    isAnchorContinueKeepMsg false and empty roomTag, liveRegion, cursor
    and enterUniqueId.  The client's state is unchanged, so later
    heartbeats still carry the connect-time room identifier. *)
Theorem switchRooms_enter_room_frame (roomId : string) (w : World) :
  exists f : PushFrame.t,
    PushFrame.payloadType f = Some "im_enter_room"
    /\ PushFrame.payload f =
       Some (WebcastImEnterRoomMessage_encode
               {| roomId := roomId; roomTag := ""; liveRegion := "";
                  liveId := "12"; identity := "audience"; cursor := "";
                  accountType := "0"; enterUniqueId := "";
                  filterWelcomeMsg := "0";
                  isAnchorContinueKeepMsg := false |})
    /\ sent (trace (switchRooms roomId w)) =
       match connection (this w) with
       | Some c => [(c, createBaseWebcastPushFrame f)]
       | None => []
       end
    /\ length (trace (switchRooms roomId w)) =
       length (sent (trace (switchRooms roomId w)))
    /\ world (switchRooms roomId w) = w
    /\ sendHeartbeat (world (switchRooms roomId w)) = sendHeartbeat w.
Proof.
  exists (enterRoomFrame roomId). rewrite switchRooms_eq.
  unfold world, trace; cbn [fst snd].
  destruct (connection (this w)); done.
Qed.

(** The heartbeat [onConnect] attempts goes to whatever connection handle
    was set before the call; the new handle is stored only afterwards. *)
Lemma onConnect_trace (wsConnection : WebSocketConnection) (w : World) :
  trace (onConnect wsConnection w) =
  match connection (this w) with
  | Some c =>
      [ConnSendBytes c
         (createBaseWebcastPushFrame
            (heartbeatFrame (room_id (webSocketParams (this w)))))]
  | None => []
  end.
Proof. unfold_handlers. destruct (connection (this w)); reflexivity. Qed.

(** A client fresh out of its constructor hands nothing to the transport
    when the 'connect' event arrives. *)
Lemma onConnect_fresh_sends_nothing
    (wsUrl : string) (cookieJar : CookieJar) (params : WebSocketParams)
    (hdrs : option (gmap string string)) (opts : RequestOptions)
    (ms : option Z) (wsConnection : WebSocketConnection) :
  trace (onConnect wsConnection
           (world (constructor wsUrl cookieJar params hdrs opts ms))) = [].
Proof. by rewrite onConnect_trace. Qed.

(** After [onConnect] the handle and a timer for the configured period are
    in place. *)
Lemma onConnect_world (wsConnection : WebSocketConnection) (w : World) :
  let w' := world (onConnect wsConnection w) in
  connection (this w') = Some wsConnection
  /\ pingInterval (this w') = Some (nextTimeout (runtime w))
  /\ intervals (runtime w') !! nextTimeout (runtime w)
     = Some (timer_period (webSocketPingIntervalMs (this w)))
  /\ webSocketParams (this w') = webSocketParams (this w).
Proof.
  unfold_handlers. destruct (connection (this w)); cbn;
    rewrite lookup_insert_eq; done.
Qed.

(** Each tick of an active timer, while the handle is set, sends one
    heartbeat carrying the room identifier given at construction. *)
Lemma interval_tick_sends_heartbeat (t : Timeout) (ms : Z)
    (c : WebSocketConnection) (w : World) :
  intervals (runtime w) !! t = Some ms ->
  connection (this w) = Some c ->
  step (IntervalFired t) w =
  (tt, w,
   [ConnSendBytes c
      (createBaseWebcastPushFrame
         (heartbeatFrame (room_id (webSocketParams (this w)))))]).
Proof.
  intros Ht Hc. unfold step. unfold bind at 1, get at 1.
  rewrite Ht, sendHeartbeat_eq, Hc. reflexivity.
Qed.

End Framing.

(** ** Inbound dispatch *)

Section Dispatch.
Context {codec : Codec} {platform : Platform}.

Lemma precedes_cons (a b e : Effect) (t : list Effect) :
  precedes a b t -> precedes a b (e :: t).
Proof.
  intros (t1 & t2 & t3 & ->). exists (e :: t1), t2, t3. reflexivity.
Qed.

Lemma precedes_here (a b : Effect) (t : list Effect) :
  In b t -> precedes a b (a :: t).
Proof.
  intros Hb. apply in_split in Hb as (t2 & t3 & ->).
  exists [], t2, t3. reflexivity.
Qed.

(** The continuation of [onMessage] on a decoded container, as a trace:
    the ack if one goes out, the fetch-result event, the entered-room
    event. *)
Lemma onMessage_resume_decoded (d : DecodedWebcastPushFrame) (w : World) :
  onMessage_resume (inr d) w =
  (tt, w,
   match protoMessageFetchResult d with
   | Some r =>
       (if needsAck r then trace (sendAck (logId d) (internalExt r) w) else [])
         ++ [Emit (protoMessageFetchResult_event r)]
   | None => []
   end
   ++ (if String.eqb (payloadType d) "im_enter_room_resp"
       then [Emit (imEnteredRoom d)] else [])).
Proof.
  unfold onMessage_resume, sendAck, sendBytes, emit, bind, ret, perform, get, trace.
  destruct (protoMessageFetchResult d) as [r|];
    [destruct (needsAck r); [destruct (truthy (logId d)); cbn;
                             [destruct (connection (this w))|]|]|];
    destruct (String.eqb (payloadType d) "im_enter_room_resp"); reflexivity.
Qed.

(** C3, as amended: for every decoded container carrying a
    protoMessageFetchResult with needsAck = true, handled while the
    connection handle is set and with a non-empty logId, exactly one ack
    frame goes to that connection, with the same logId, payloadType ack
    and payload the TextEncoder (UTF-8) bytes of internalExt; when the
    logId is absent or empty, or the handle has been cleared before the
    decode completed, no frame goes out.  In every case the handler runs
    to its end without a decode-failure event: the fetch-result event is
    still published. *)
Theorem ack_correlated_by_logId
    (d : DecodedWebcastPushFrame) (r : ProtoMessageFetchResult) (w : World) :
  protoMessageFetchResult d = Some r ->
  needsAck r = true ->
  exists f : PushFrame.t,
    PushFrame.logId f = logId d
    /\ PushFrame.payloadType f = Some "ack"
    /\ PushFrame.payload f = Some (textEncoder_encode (internalExt r))
    /\ sent (trace (onMessage_resume (inr d) w)) =
       match connection (this w), truthy (logId d) with
       | Some c, true => [(c, createBaseWebcastPushFrame f)]
       | _, _ => []
       end
    /\ emitted (trace (onMessage_resume (inr d) w)) =
       protoMessageFetchResult_event r
         :: (if String.eqb (payloadType d) "im_enter_room_resp"
             then [imEnteredRoom d] else [])
    /\ world (onMessage_resume (inr d) w) = w.
Proof.
  intros Hr Hack. exists (ackFrame (logId d) (internalExt r)).
  rewrite onMessage_resume_decoded, Hr, Hack, sendAck_eq.
  unfold world, trace; cbn [fst snd].
  destruct (connection (this w)) as [c|], (truthy (logId d)),
    (String.eqb (payloadType d) "im_enter_room_resp"); done.
Qed.

(** With quiet subscribers the continuation is [onMessage_resume]. *)
Lemma onMessage_resume_with_quiet
    (decoded : Error + DecodedWebcastPushFrame) (w : World) :
  onMessage_resume_with quiet decoded w = onMessage_resume decoded w.
Proof.
  destruct decoded as [err|d]; [reflexivity|].
  unfold onMessage_resume_with, onMessage_try, onMessage_resume, emit_in_try,
    quiet, sendAck, sendBytes, emit, bind, ret, perform, get.
  destruct (protoMessageFetchResult d) as [r|];
    [destruct (needsAck r); [destruct (truthy (logId d)); cbn;
                             [destruct (connection (this w))|]|]|];
    destruct (String.eqb (payloadType d) "im_enter_room_resp"); reflexivity.
Qed.

(** The continuation on a decoded container, whatever the subscribers do. *)
Lemma onMessage_resume_with_decoded (subscribers : Subscribers)
    (d : DecodedWebcastPushFrame) (w : World) :
  onMessage_resume_with subscribers (inr d) w =
  (tt, w,
   let entered :=
     if String.eqb (payloadType d) "im_enter_room_resp"
     then Emit (imEnteredRoom d)
            :: match subscribers (imEnteredRoom d) with
               | Some err => [Emit (messageDecodingFailed err)]
               | None => []
               end
     else [] in
   match protoMessageFetchResult d with
   | Some r =>
       (if needsAck r then trace (sendAck (logId d) (internalExt r) w) else [])
         ++ Emit (protoMessageFetchResult_event r)
         :: match subscribers (protoMessageFetchResult_event r) with
            | Some err => [Emit (messageDecodingFailed err)]
            | None => entered
            end
   | None => entered
   end).
Proof.
  unfold onMessage_resume_with, onMessage_try, emit_in_try, sendAck, sendBytes,
    emit, bind, ret, perform, get, trace.
  destruct (protoMessageFetchResult d) as [r|];
    [destruct (needsAck r); [destruct (truthy (logId d)); cbn;
                             [destruct (connection (this w))|]|];
     cbn; destruct (subscribers (protoMessageFetchResult_event r))|];
    cbn; destruct (String.eqb (payloadType d) "im_enter_room_resp"); cbn;
    try destruct (subscribers (imEnteredRoom d)); reflexivity.
Qed.

(** What is transmitted, and the state left behind, do not depend on the
    subscribers: the ack leaves before any of them is called. *)
Lemma onMessage_resume_with_sent (subscribers : Subscribers)
    (decoded : Error + DecodedWebcastPushFrame) (w : World) :
  sent (trace (onMessage_resume_with subscribers decoded w))
  = sent (trace (onMessage_resume decoded w))
  /\ world (onMessage_resume_with subscribers decoded w) = w.
Proof.
  destruct decoded as [err|d]; [done|].
  rewrite onMessage_resume_with_decoded, onMessage_resume_decoded.
  unfold world, trace at 1 3; cbn [fst snd]. split; [|reflexivity].
  destruct (protoMessageFetchResult d) as [r|];
    [destruct (needsAck r);
     [rewrite sendAck_eq; unfold trace; cbn [snd];
      destruct (connection (this w)); [destruct (truthy (logId d))|]|];
     destruct (subscribers (protoMessageFetchResult_event r))|];
    destruct (String.eqb (payloadType d) "im_enter_room_resp");
    try destruct (subscribers (imEnteredRoom d)); reflexivity.
Qed.

(** C4, as amended: for every successfully decoded container the handler
    does exactly this, in this order, and leaves the client unchanged.  If
    the container carries a protoMessageFetchResult: the ack frame (same
    logId, payloadType ack, payloadEncoding pb, payload the TextEncoder
    bytes of internalExt) is sent when needsAck is true, the logId is
    non-empty and the connection handle is set, and not otherwise; then the
    fetch-result event is published, whatever became of the ack.  Then, if
    the payloadType is im_enter_room_resp, the whole container is published
    on the entered-room event; a container with both gets both.  The one
    exception: when a subscriber throws as an event is delivered, the
    handler stops there and publishes what was thrown on the
    decoding-failed event, so a throwing fetch-result subscriber suppresses
    the entered-room event. *)
Theorem decoded_container_dispatch (subscribers : Subscribers)
    (d : DecodedWebcastPushFrame) (w : World) :
  let ack (r : ProtoMessageFetchResult) :=
    match connection (this w) with
    | Some c =>
        if needsAck r && truthy (logId d)
        then [ConnSendBytes c
                (createBaseWebcastPushFrame
                   {| PushFrame.logId := logId d;
                      PushFrame.payloadEncoding := Some "pb";
                      PushFrame.payloadType := Some "ack";
                      PushFrame.payload :=
                        Some (textEncoder_encode (internalExt r));
                      PushFrame.service := None;
                      PushFrame.method := None;
                      PushFrame.headers := None |})]
        else []
    | None => []
    end in
  let entered :=
    if String.eqb (payloadType d) "im_enter_room_resp"
    then Emit (imEnteredRoom d)
           :: match subscribers (imEnteredRoom d) with
              | Some err => [Emit (messageDecodingFailed err)]
              | None => []
              end
    else [] in
  onMessage_resume_with subscribers (inr d) w =
  (tt, w,
   match protoMessageFetchResult d with
   | Some r =>
       ack r
         ++ Emit (protoMessageFetchResult_event r)
         :: match subscribers (protoMessageFetchResult_event r) with
            | Some err => [Emit (messageDecodingFailed err)]
            | None => entered
            end
   | None => entered
   end).
Proof.
  intros ack entered. rewrite onMessage_resume_with_decoded.
  f_equal. unfold ack, entered.
  destruct (protoMessageFetchResult d) as [r|]; [|reflexivity].
  f_equal. rewrite sendAck_eq. unfold trace; cbn [snd].
  destruct (needsAck r), (connection (this w)), (truthy (logId d)); reflexivity.
Qed.

(** C5: every inbound message is first published on the raw-data event;
    a message that is not binary is then published on the unknown-response
    event and handling stops there: the handler does not suspend on a
    decode, sends nothing, emits nothing else and leaves the client
    unchanged.  A binary message suspends on the decode of its data. *)
Theorem raw_data_first_then_unknown (message : WebSocketMessage) (w : World) :
  (exists rest, trace (onMessage message w) = Emit (webSocketData message) :: rest)
  /\ match message with
     | Utf8Message _ =>
         onMessage_begin message w =
           (None, w, [Emit (webSocketData message); Emit (unknownResponse message)])
         /\ onMessage message w =
           (tt, w, [Emit (webSocketData message); Emit (unknownResponse message)])
     | BinaryMessage binaryData =>
         onMessage_begin message w =
           (Some binaryData, w, [Emit (webSocketData message)])
     end.
Proof.
  destruct message as [s|data].
  - repeat split; eauto.
  - split; [|reflexivity].
    unfold onMessage, bind at 1. cbn.
    destruct (onMessage_resume _ w) as [[u w'] t]. cbn. eauto.
Qed.

End Dispatch.

(** ** Runs of the event loop *)

Section Runs.
Context {codec : Codec} {platform : Platform}.

Lemma trace_bind {A B} (m : M A) (k : A -> M B) (w : World) :
  trace (bind m k w) = trace (m w) ++ trace (k (result (m w)) (world (m w))).
Proof.
  unfold bind, trace, result, world.
  destruct (m w) as [[a w1] t1]. cbn. destruct (k a w1) as [[b w2] t2].
  reflexivity.
Qed.

Lemma world_bind {A B} (m : M A) (k : A -> M B) (w : World) :
  world (bind m k w) = world (k (result (m w)) (world (m w))).
Proof.
  unfold bind, trace, result, world.
  destruct (m w) as [[a w1] t1]. cbn. destruct (k a w1) as [[b w2] t2].
  reflexivity.
Qed.

Lemma bind_get {B} (k : World -> M B) (w : World) :
  bind get k w = k w w.
Proof. unfold bind, get. destruct (k w w) as [[b w2] t2]. reflexivity. Qed.

Lemma bind_modify {B} (f : World -> World) (k : unit -> M B) (w : World) :
  bind (modify f) k w = k tt (f w).
Proof. unfold bind, modify. destruct (k tt (f w)) as [[b w2] t2]. reflexivity. Qed.

Lemma run_cons (i : Input) (rest : list Input) (w : World) :
  trace (run (i :: rest) w) = trace (step i w) ++ trace (run rest (world (step i w)))
  /\ world (run (i :: rest) w) = world (run rest (world (step i w))).
Proof. cbn [run]. rewrite trace_bind, world_bind. done. Qed.

Lemma run_app (a b : list Input) (w : World) :
  trace (run (a ++ b) w) = trace (run a w) ++ trace (run b (world (run a w)))
  /\ world (run (a ++ b) w) = world (run b (world (run a w))).
Proof.
  revert w. induction a as [|i a IH]; intros w.
  - done.
  - rewrite <- app_comm_cons.
    destruct (run_cons i (a ++ b) w) as [-> ->].
    destruct (run_cons i a w) as [-> ->].
    destruct (IH (world (step i w))) as [-> ->].
    by rewrite app_assoc.
Qed.

Lemma delete_last_appended {A} (l : list A) (x : A) :
  (l ++ [x]) !! length l = Some x /\ delete (length l) (l ++ [x]) = l.
Proof.
  induction l as [|y l [IH1 IH2]]; [done|].
  split; [exact IH1|]. cbn. f_equal. exact IH2.
Qed.

(** C6: when the decode of a binary message fails, a decoding-failed
    event carrying the error is published and nothing else happens: the
    client and its runtime are exactly as before the message arrived (the
    connection handle and the timer stay, no close is requested), so
    whatever arrives afterwards is processed as if the failing message had
    never been received. *)
Theorem decode_failure_isolated
    (c : WebSocketConnection) (data : bytes) (err : Error) (w : World)
    (rest : list Input) :
  In c (bound (runtime w)) ->
  deserializeWebSocketMessage data = inl err ->
  let failing :=
    [ConnMessage c (BinaryMessage data);
     DecodeSettled (length (awaiting (runtime w)))] in
  run failing w =
    (tt, w, [Emit (webSocketData (BinaryMessage data));
             Emit (messageDecodingFailed err)])
  /\ world (run (failing ++ rest) w) = world (run rest w)
  /\ trace (run (failing ++ rest) w) =
     [Emit (webSocketData (BinaryMessage data)); Emit (messageDecodingFailed err)]
       ++ trace (run rest w).
Proof.
  intros Hc Herr failing.
  assert (Hrun : run failing w =
    (tt, w, [Emit (webSocketData (BinaryMessage data));
             Emit (messageDecodingFailed err)])).
  { destruct (delete_last_appended (awaiting (runtime w)) data) as [Hl Hd].
    unfold failing. cbn [run step]. unfold_handlers.
    rewrite bool_decide_eq_true_2 by (by apply list_elem_of_In).
    cbn. rewrite Hl, Herr. cbn. unfold on_runtime, set_awaiting. cbn.
    rewrite Hd. destruct w as [o [? ? ? ? ? ?]]. reflexivity. }
  split; [exact Hrun|].
  destruct (run_app failing rest w) as [-> ->].
  rewrite Hrun. done.
Qed.

(** The period handed to [setInterval] is the constructor's sixth argument,
    10000 ms when it is left out. *)
Lemma constructor_default_period
    (wsUrl : string) (cookieJar : CookieJar) (params : WebSocketParams)
    (hdrs : option (gmap string string)) (opts : RequestOptions) :
  webSocketPingIntervalMs
    (this (world (constructor wsUrl cookieJar params hdrs opts None))) = 10000%Z
  /\ forall ms,
       webSocketPingIntervalMs
         (this (world (constructor wsUrl cookieJar params hdrs opts (Some ms)))) = ms.
Proof. split; reflexivity. Qed.

(** [onDisconnect] cancels the timer held in [pingInterval] and clears both
    handles. *)
Lemma onDisconnect_world (w : World) :
  let w' := world (onDisconnect w) in
  connection (this w') = None
  /\ pingInterval (this w') = None
  /\ match pingInterval (this w) with
     | Some t => intervals (runtime w') !! t = None
     | None => intervals (runtime w') = intervals (runtime w)
     end.
Proof.
  unfold_handlers. destruct (pingInterval (this w)) as [t|]; cbn;
    rewrite ?lookup_delete_eq; done.
Qed.

Lemma sent_app (t t' : list Effect) : sent (t ++ t') = sent t ++ sent t'.
Proof. apply omap_app. Qed.

(** While the connection handle is null nothing is handed to a connection:
    an input other than 'connect' sends nothing and leaves the handle
    null. *)
Lemma step_disconnected (i : Input) (w : World) :
  connection (this w) = None ->
  is_TransportConnect i = false ->
  sent (trace (step i w)) = []
  /\ connection (this (world (step i w))) = None.
Proof.
  intros Hc Hi. destruct i as [c|c m|c|i|t| |rid|data]; [discriminate|..];
    cbn [step].
  - rewrite bind_get. destruct (bool_decide _); [|done].
    destruct m; done.
  - rewrite bind_get. destruct (bool_decide _); [|done].
    rewrite bind_modify, onDisconnect_trace. split.
    + cbn. induction (onceClose _); [done|assumption].
    + apply onDisconnect_world.
  - rewrite bind_get.
    destruct (awaiting (runtime w) !! i) as [d|]; [|done].
    rewrite bind_modify.
    destruct (deserializeWebSocketMessage d) as [e|dc]; [done|].
    rewrite onMessage_resume_decoded. unfold world, trace at 1; cbn [fst snd].
    split; [|exact Hc].
    destruct (protoMessageFetchResult dc) as [r|];
      [destruct (needsAck r);
       [rewrite sendAck_eq; unfold trace; cbn [snd on_runtime this]; rewrite Hc|]|];
      destruct (String.eqb (payloadType dc) "im_enter_room_resp"); reflexivity.
  - rewrite bind_get. destruct (intervals (runtime w) !! t); [|done].
    rewrite sendHeartbeat_eq, Hc. done.
  - unfold_handlers. rewrite Hc. done.
  - rewrite switchRooms_eq, Hc. done.
  - rewrite trace_bind, world_bind, sendBytes_eq, Hc. done.
Qed.

(** Once the close event has cleared the handle, no heartbeat - nor any
    other frame - is sent until the transport connects again. *)
Lemma run_disconnected_sends_nothing (inputs : list Input) (w : World) :
  connection (this w) = None ->
  forallb (fun i => negb (is_TransportConnect i)) inputs = true ->
  sent (trace (run inputs w)) = [].
Proof.
  revert w. induction inputs as [|i rest IH]; intros w Hc Hin; [done|].
  cbn [forallb] in Hin. apply andb_prop in Hin as [Hi Hrest].
  apply negb_true_iff in Hi.
  destruct (run_cons i rest w) as [-> _].
  destruct (step_disconnected i w Hc Hi) as [Hs Hc'].
  rewrite sent_app, Hs. cbn. by apply IH.
Qed.

End Runs.

(** ** Closing *)

Section Closing.
Context {codec : Codec} {platform : Platform}.

Lemma only_after_app (a b : Effect) (t t' : list Effect) :
  only_after a b t -> only_after a b t' -> only_after a b (t ++ t').
Proof.
  intros Ht Ht' l1 l2 Heq.
  apply app_eq_app in Heq as [l [[-> Heq]|[-> Heq]]].
  - destruct l as [|e l]; cbn in Heq.
    + exfalso. symmetry in Heq. apply (Ht' [] l2) in Heq. destruct Heq.
    + inversion Heq; subst. eapply Ht. reflexivity.
  - apply in_or_app. right. eapply Ht'. exact Heq.
Qed.

Lemma only_after_absent (a b : Effect) (t : list Effect) :
  ~ In b t -> only_after a b t.
Proof.
  intros Hno l1 l2 ->. exfalso. apply Hno, in_or_app. right. now left.
Qed.

Lemma only_after_head (a b : Effect) (t : list Effect) :
  a <> b -> only_after a b (a :: t).
Proof.
  intros Hab [|e l1] l2 Heq; inversion Heq; subst; [congruence|now left].
Qed.

Local Ltac no_resolve :=
  apply only_after_absent; cbn; intuition discriminate.

(** What one input can contribute: unless it is the 'close' of a bound
    connection, its trace resolves at most the promise allocated by that
    very input. *)
Lemma step_resolves (i : Input) (w : World) (p : Promise) :
  p < nextPromise (runtime w) ->
  only_after (Emit close_event) (Resolve p) (trace (step i w))
  /\ p < nextPromise (runtime (world (step i w))).
Proof.
  intros Hp. destruct i as [c|c m|c|i|t| |rid|data]; cbn [step].
  - split.
    + rewrite onConnect_trace.
      destruct (connection (this w)); no_resolve.
    + unfold_handlers. destruct (connection (this w)); exact Hp.
  - rewrite bind_get. destruct (bool_decide _); [|split; [no_resolve|done]].
    destruct m; (split; [no_resolve|exact Hp]).
  - rewrite bind_get. destruct (bool_decide _); [|split; [no_resolve|done]].
    rewrite bind_modify. split.
    + rewrite onDisconnect_trace. apply only_after_head. discriminate.
    + unfold_handlers. destruct (pingInterval (this w)); exact Hp.
  - rewrite bind_get.
    destruct (awaiting (runtime w) !! i) as [d|]; [|split; [no_resolve|done]].
    rewrite bind_modify.
    destruct (deserializeWebSocketMessage d) as [e|dc];
      [split; [no_resolve|exact Hp]|].
    rewrite onMessage_resume_decoded.
    unfold world, trace at 1; cbn [fst snd].
    split; [|exact Hp]. apply only_after_absent.
    destruct (protoMessageFetchResult dc) as [r|];
      [destruct (needsAck r);
       [rewrite sendAck_eq; unfold trace; cbn [snd on_runtime this];
        destruct (connection (this w)); [destruct (truthy (logId dc))|]|]|];
      destruct (String.eqb (payloadType dc) "im_enter_room_resp");
      cbn; intuition discriminate.
  - rewrite bind_get.
    destruct (intervals (runtime w) !! t); [|split; [no_resolve|done]].
    rewrite sendHeartbeat_eq. unfold world, trace; cbn [fst snd].
    split; [|exact Hp].
    destruct (connection (this w)); no_resolve.
  - unfold_handlers. destruct (connection (this w)); cbn.
    + split; [no_resolve|lia].
    + split; [|lia]. apply only_after_absent. cbn.
      intros [H|[]]. inversion H. lia.
  - rewrite switchRooms_eq. unfold world, trace; cbn [fst snd].
    split; [|exact Hp].
    destruct (connection (this w)); no_resolve.
  - rewrite trace_bind, world_bind, sendBytes_eq.
    destruct (connection (this w)); cbn;
      (split; [no_resolve|exact Hp]).
Qed.

Lemma run_resolves (inputs : list Input) (w : World) (p : Promise) :
  p < nextPromise (runtime w) ->
  only_after (Emit close_event) (Resolve p) (trace (run inputs w)).
Proof.
  revert w. induction inputs as [|i rest IH]; intros w Hp.
  - apply only_after_absent. intros [].
  - destruct (run_cons i rest w) as [-> _].
    destruct (step_resolves i w p Hp) as [Ht Hp'].
    apply only_after_app; [exact Ht|]. by apply IH.
Qed.

(** A listener added by [close()] stays registered until a 'close' event
    runs it. *)
Lemma step_pending (i : Input) (w : World) (p : Promise) :
  In p (onceClose (runtime w)) ->
  In (Resolve p) (trace (step i w))
  \/ In p (onceClose (runtime (world (step i w)))).
Proof.
  intros Hp. destruct i as [c|c m|c|i|t| |rid|data]; cbn [step].
  - right. unfold_handlers. destruct (connection (this w)); exact Hp.
  - right. rewrite bind_get. destruct (bool_decide _); [|exact Hp].
    destruct m; exact Hp.
  - rewrite bind_get. destruct (bool_decide _); [|right; exact Hp].
    rewrite bind_modify. left. rewrite onDisconnect_trace.
    right. apply in_map. exact Hp.
  - right. rewrite bind_get.
    destruct (awaiting (runtime w) !! i) as [d|]; [|exact Hp].
    rewrite bind_modify.
    destruct (deserializeWebSocketMessage d) as [e|dc]; [exact Hp|].
    rewrite onMessage_resume_decoded. exact Hp.
  - right. rewrite bind_get.
    destruct (intervals (runtime w) !! t); [|exact Hp].
    rewrite sendHeartbeat_eq. exact Hp.
  - right. unfold_handlers.
    destruct (connection (this w)); cbn; apply in_or_app; left; exact Hp.
  - right. rewrite switchRooms_eq. exact Hp.
  - right. rewrite world_bind, sendBytes_eq.
    destruct (connection (this w)); exact Hp.
Qed.

Lemma run_pending (inputs : list Input) (w : World) (p : Promise) :
  In p (onceClose (runtime w)) ->
  In (Resolve p) (trace (run inputs w))
  \/ In p (onceClose (runtime (world (run inputs w)))).
Proof.
  revert w. induction inputs as [|i rest IH]; intros w Hp.
  - right. exact Hp.
  - destruct (run_cons i rest w) as [-> ->].
    destruct (step_pending i w p Hp) as [Hdone|Hp'].
    + left. apply in_or_app. left. exact Hdone.
    + destruct (IH _ Hp') as [Hdone|Hlater].
      * left. apply in_or_app. right. exact Hdone.
      * right. exact Hlater.
Qed.

Lemma onDisconnect_resolves_pending (w : World) (p : Promise) :
  In p (onceClose (runtime w)) ->
  precedes (Emit close_event) (Resolve p) (trace (onDisconnect w)).
Proof.
  intros Hp. rewrite onDisconnect_trace.
  apply precedes_here, in_map, Hp.
Qed.

(** C7: [close()] on a session whose connection handle is set asks that
    connection to close with code 1000 and does nothing else; the returned
    completion is then resolved only after a close event has been emitted,
    whatever happens in between, and it is resolved by the next close event
    if it has not been by then.  On a session without a connection handle
    [close()] resolves the completion at once and neither sends nor closes
    anything. *)
Theorem close_resolves_on_close_event (w : World) (later : list Input) :
  let p := result (close w) in
  let w' := world (close w) in
  match connection (this w) with
  | Some c =>
      trace (close w) = [ConnClose c 1000]
      /\ only_after (ConnClose c 1000) (Resolve p)
           (trace (close w) ++ trace (run later w'))
      /\ only_after (Emit close_event) (Resolve p)
           (trace (close w) ++ trace (run later w'))
      /\ (In (Resolve p) (trace (run later w'))
          \/ precedes (Emit close_event) (Resolve p)
               (trace (onDisconnect (world (run later w')))))
  | None =>
      trace (close w) = [Resolve p]
  end.
Proof.
  intros p w'.
  assert (Hfresh : p < nextPromise (runtime w')).
  { unfold p, w'. unfold_handlers. destruct (connection (this w)); cbn; lia. }
  assert (Hreg : In p (onceClose (runtime w'))).
  { unfold p, w'. unfold_handlers.
    destruct (connection (this w)); cbn; apply in_or_app; right; now left. }
  destruct (connection (this w)) as [c|] eqn:Hc.
  - assert (Ht : trace (close w) = [ConnClose c 1000]).
    { unfold_handlers. rewrite Hc. reflexivity. }
    rewrite Ht. repeat split.
    + apply only_after_head. discriminate.
    + apply (only_after_app _ _ [_]).
      * apply only_after_absent. cbn. intuition discriminate.
      * apply run_resolves, Hfresh.
    + destruct (run_pending later w' p Hreg) as [Hdone|Hpend]; [left; exact Hdone|].
      right. apply onDisconnect_resolves_pending, Hpend.
  - unfold p. unfold_handlers. rewrite Hc. reflexivity.
Qed.

End Closing.

(** ** The handshake headers *)

Section Handshake.
Context {codec : Codec} {platform : Platform}.

(** The header literal, key by key: a caller's entry wins, the session
    cookie fills in "Cookie" when the caller gives none. *)
Lemma headers_literal_lookup (cookieJar : CookieJar)
    (hdrs : gmap string string) (k : string) :
  headers_literal cookieJar (Some hdrs) !! k =
  match hdrs !! k with
  | Some v => Some v
  | None => if decide (k = "Cookie") then Some (getCookieString cookieJar) else None
  end.
Proof.
  unfold headers_literal. rewrite lookup_union.
  destruct (hdrs !! k) as [v|] eqn:Hk.
  - by destruct ({[ "Cookie" := getCookieString cookieJar ]} !! k).
  - rewrite (left_id None _). case_decide as Hd.
    + subst k. by rewrite lookup_singleton_eq.
    + by rewrite lookup_singleton_ne.
Qed.

(** Without caller headers ([null] or [undefined]) the session cookie is
    the only header. *)
Lemma headers_literal_default (cookieJar : CookieJar) :
  headers_literal cookieJar None = {[ "Cookie" := getCookieString cookieJar ]}.
Proof. unfold headers_literal. by rewrite (left_id ∅ _). Qed.

(** C10: the handshake is made with the headers the constructor stores,
    and in them the session cookie is merged before the caller's headers:
    "Cookie" carries the cookie jar's string unless the caller's headers
    contain a "Cookie" key, in which case the caller's value replaces it
    (the jar's string is dropped), and every other key carries exactly what
    the caller supplied. *)
Theorem caller_cookie_replaces_session_cookie
    (wsUrl : string) (cookieJar : CookieJar) (params : WebSocketParams)
    (hdrs : option (gmap string string)) (opts : RequestOptions) (ms : option Z) :
  let r := constructor wsUrl cookieJar params hdrs opts ms in
  let caller := match hdrs with Some h => h | None => ∅ end in
  (exists url origin,
     trace r = [ClientConnect url "" origin (wsHeaders (this (world r))) opts])
  /\ wsHeaders (this (world r)) !! "Cookie"
     = match caller !! "Cookie" with
       | Some v => Some v
       | None => Some (getCookieString cookieJar)
       end
  /\ (forall k, k <> "Cookie" -> wsHeaders (this (world r)) !! k = caller !! k).
Proof.
  intros r caller. unfold r, constructor, world, trace.
  cbn [fst snd this wsHeaders].
  split; [eauto|].
  assert (Hlookup : forall k,
    headers_literal cookieJar hdrs !! k =
    match caller !! k with
    | Some v => Some v
    | None => if decide (k = "Cookie") then Some (getCookieString cookieJar) else None
    end).
  { intros k. destruct hdrs as [h|]; [apply headers_literal_lookup|].
    rewrite headers_literal_default. unfold caller. rewrite lookup_empty.
    case_decide as Hk.
    - subst k. apply lookup_singleton_eq.
    - by apply lookup_singleton_ne. }
  split.
  - rewrite Hlookup. by destruct (caller !! "Cookie").
  - intros k Hk. rewrite Hlookup. destruct (caller !! k); [done|]. by case_decide.
Qed.

End Handshake.

(** ** Concrete runs *)

(** C1, at the failing input: a client fresh out of its constructor that
    receives the transport's 'connect' event sends no heartbeat at connect
    time, since [onConnect] calls [sendHeartbeat] while the connection handle
    is still null; the first heartbeat, carrying room "123", leaves only when
    the interval timer first fires. *)
Theorem connect_time_heartbeat_not_sent :
  connection (this sample_fresh) = None
  /\ sent (trace (run [TransportConnect 7] sample_fresh)) = []
  /\ sent (trace (run [TransportConnect 7; IntervalFired 0] sample_fresh))
     = [(7, createBaseWebcastPushFrame (heartbeatFrame "123"))].
Proof. vm_compute. repeat split. Qed.

(** The frames the client builds carry "pb", not "protobuf". *)
Lemma payloadEncoding_is_not_protobuf :
  PushFrame.payloadEncoding (heartbeatFrame "123") <> Some "protobuf"
  /\ PushFrame.payloadEncoding (ackFrame (Some "L1") "abc") <> Some "protobuf"
  /\ PushFrame.payloadEncoding (enterRoomFrame "456") <> Some "protobuf".
Proof. repeat split; discriminate. Qed.

(** A container that needs an ack and has logId "L1" gets none when the
    connection closes while its decode is pending. *)
Lemma ack_dropped_when_closed_during_decode :
  let w := world (run [TransportConnect 7;
                       ConnMessage 7 (BinaryMessage [x01]);
                       ConnClosed 7] sample_fresh) in
  awaiting (runtime w) = [[x01]]
  /\ deserializeWebSocketMessage [x01] = inr sample_container
  /\ protoMessageFetchResult sample_container = Some sample_fetchResult
  /\ needsAck sample_fetchResult = true
  /\ logId sample_container = Some "L1"
  /\ sent (trace (step (DecodeSettled 0) w)) = []
  /\ trace (step (DecodeSettled 0) w)
     = [Emit (protoMessageFetchResult_event sample_fetchResult)].
Proof. vm_compute. repeat split. Qed.

(** [switchRooms] on a client without a connection handle produces no
    outbound frame. *)
Lemma switchRooms_without_connection_sends_nothing :
  connection (this sample_fresh) = None
  /\ sent (trace (switchRooms "456" sample_fresh)) = []
  /\ length (sent (trace (switchRooms "456" sample_fresh))) <> 1.
Proof. vm_compute. repeat split. discriminate. Qed.

Lemma ack_correlated_by_logId_witness :
  exists f : PushFrame.t,
    PushFrame.logId f = Some "L1"
    /\ PushFrame.payloadType f = Some "ack"
    /\ PushFrame.payload f = Some (bytes_of_string "abc")
    /\ sent (trace (onMessage_resume (inr sample_container) sample_connected))
       = [(7, createBaseWebcastPushFrame f)]
    /\ emitted (trace (onMessage_resume (inr sample_container) sample_connected))
       = [protoMessageFetchResult_event sample_fetchResult]
    /\ world (onMessage_resume (inr sample_container) sample_connected)
       = sample_connected.
Proof.
  exact (ack_correlated_by_logId sample_container sample_fetchResult
           sample_connected eq_refl eq_refl).
Defined.

(** A container that carries a fetch result and is a room-entry response
    is not published on the entered-room event when the fetch-result
    subscriber throws: what was thrown is published as a decoding failure
    instead. *)
Lemma entered_room_skipped_when_subscriber_throws :
  protoMessageFetchResult sample_entered = Some sample_fetchResult
  /\ payloadType sample_entered = "im_enter_room_resp"
  /\ trace (run_with sample_throwing
              [ConnMessage 7 (BinaryMessage [x02]); DecodeSettled 0]
              sample_connected)
     = [Emit (webSocketData (BinaryMessage [x02]));
        ConnSendBytes 7 (createBaseWebcastPushFrame (ackFrame (Some "L2") "abc"));
        Emit (protoMessageFetchResult_event sample_fetchResult);
        Emit (messageDecodingFailed "boom")]
  /\ ~ In (Emit (imEnteredRoom sample_entered))
          (trace (onMessage_resume_with sample_throwing (inr sample_entered)
                    sample_connected)).
Proof.
  repeat split; try (vm_compute; reflexivity).
  vm_compute. intuition discriminate.
Qed.

Lemma decode_failure_isolated_witness :
  run [ConnMessage 7 (BinaryMessage [x09]); DecodeSettled 0] sample_connected
  = (tt, sample_connected,
     [Emit (webSocketData (BinaryMessage [x09]));
      Emit (messageDecodingFailed "malformed")])
  /\ world (run ([ConnMessage 7 (BinaryMessage [x09]); DecodeSettled 0]
                   ++ [ConnMessage 7 (BinaryMessage [x01]); DecodeSettled 0])
              sample_connected)
     = world (run [ConnMessage 7 (BinaryMessage [x01]); DecodeSettled 0]
                sample_connected)
  /\ trace (run ([ConnMessage 7 (BinaryMessage [x09]); DecodeSettled 0]
                   ++ [ConnMessage 7 (BinaryMessage [x01]); DecodeSettled 0])
              sample_connected)
     = [Emit (webSocketData (BinaryMessage [x09]));
        Emit (messageDecodingFailed "malformed")]
         ++ trace (run [ConnMessage 7 (BinaryMessage [x01]); DecodeSettled 0]
                     sample_connected).
Proof.
  apply (decode_failure_isolated 7 [x09] "malformed" sample_connected
           [ConnMessage 7 (BinaryMessage [x01]); DecodeSettled 0]).
  - vm_compute. left. reflexivity.
  - reflexivity.
Defined.

(** The caller's "Cookie" wins over the jar's; without one the jar's is
    sent. *)
Example handshake_cookie_samples :
  headers_literal {| getCookieString := "sid=1" |}
    (Some (<[ "Cookie" := "own=1" ]> {[ "User-Agent" := "probe" ]})) !! "Cookie"
  = Some "own=1"
  /\ headers_literal {| getCookieString := "sid=1" |}
       (Some {[ "User-Agent" := "probe" ]}) !! "Cookie"
     = Some "sid=1"
  /\ headers_literal {| getCookieString := "sid=1" |} None !! "Cookie"
     = Some "sid=1".
Proof. repeat split; vm_compute; reflexivity. Qed.

(** A whole session: connect, one tick, a message needing an ack, [close()],
    the close event, a stray tick, and [close()] again. *)
Example session_trace :
  trace (run [TransportConnect 7; IntervalFired 0;
              ConnMessage 7 (BinaryMessage [x01]); DecodeSettled 0;
              CallClose; ConnClosed 7; IntervalFired 0; CallClose]
           sample_fresh)
  = [ConnSendBytes 7 (createBaseWebcastPushFrame (heartbeatFrame "123"));
     Emit (webSocketData (BinaryMessage [x01]));
     ConnSendBytes 7 (createBaseWebcastPushFrame (ackFrame (Some "L1") "abc"));
     Emit (protoMessageFetchResult_event sample_fetchResult);
     ConnClose 7 1000;
     Emit close_event;
     Resolve 0;
     Resolve 1].
Proof. vm_compute. reflexivity. Qed.

(** A text message is reported as raw data and as an unknown response, and
    that is all. *)
Example text_message_trace :
  run [ConnMessage 7 (Utf8Message "ping")] sample_connected
  = (tt, sample_connected,
     [Emit (webSocketData (Utf8Message "ping"));
      Emit (unknownResponse (Utf8Message "ping"))]).
Proof. vm_compute. reflexivity. Qed.

(** [sendBytes] before the transport has connected, and after. *)
Example sendBytes_sample :
  sendBytes [x01; x02] sample_fresh = (false, sample_fresh, [])
  /\ sendBytes [x01; x02] sample_connected
     = (true, sample_connected, [ConnSendBytes 7 [x01; x02]]).
Proof. split; reflexivity. Qed.

(** * Further properties of the class *)

Section Session.
Context {codec : Codec} {platform : Platform}.

Lemma onConnect_eq (wsConnection : WebSocketConnection) (w : World) :
  onConnect wsConnection w =
  (tt,
   {| this :=
        set_pingInterval (Some (nextTimeout (runtime w)))
          (set_connection (Some wsConnection) (this w));
      runtime :=
        set_bound (wsConnection :: bound (runtime w))
          (add_interval (nextTimeout (runtime w))
             (timer_period (webSocketPingIntervalMs (this w))) (runtime w)) |},
   match connection (this w) with
   | Some c =>
       [ConnSendBytes c
          (createBaseWebcastPushFrame
             (heartbeatFrame (room_id (webSocketParams (this w)))))]
   | None => []
   end).
Proof. unfold_handlers. destruct (connection (this w)); reflexivity. Qed.

Lemma onDisconnect_eq (w : World) :
  onDisconnect w =
  (tt,
   {| this := set_connection None (set_pingInterval None (this w));
      runtime :=
        set_onceClose []
          (match pingInterval (this w) with
           | Some t => remove_interval t (runtime w)
           | None => runtime w
           end) |},
   Emit close_event :: (Resolve <$> onceClose (runtime w))).
Proof. unfold_handlers. destruct (pingInterval (this w)); reflexivity. Qed.

Lemma close_eq (w : World) :
  close w =
  (nextPromise (runtime w),
   {| this := this w;
      runtime :=
        set_onceClose (onceClose (runtime w) ++ [nextPromise (runtime w)])
          (set_nextPromise (S (nextPromise (runtime w))) (runtime w)) |},
   match connection (this w) with
   | Some c => [ConnClose c 1000]
   | None => [Resolve (nextPromise (runtime w))]
   end).
Proof. unfold_handlers. destruct (connection (this w)); reflexivity. Qed.

Lemma onMessage_resume_world (decoded : Error + DecodedWebcastPushFrame)
    (w : World) :
  world (onMessage_resume decoded w) = w.
Proof.
  destruct decoded as [e|d]; [reflexivity|].
  by rewrite onMessage_resume_decoded.
Qed.

(** One input at a time: the client part of the state changes only on the
    transport's 'connect' and 'close' events. *)
Lemma step_this (i : Input) (w : World) :
  this (world (step i w)) =
  match i with
  | TransportConnect c =>
      set_pingInterval (Some (nextTimeout (runtime w)))
        (set_connection (Some c) (this w))
  | ConnClosed c =>
      if bool_decide (c ∈ bound (runtime w))
      then set_connection None (set_pingInterval None (this w))
      else this w
  | _ => this w
  end.
Proof.
  destruct i as [c|c m|c|i|t| |rid|data]; cbn [step].
  - by rewrite onConnect_eq.
  - rewrite bind_get. destruct (bool_decide _); [|done]. by destruct m.
  - rewrite bind_get. destruct (bool_decide _); [|done].
    by rewrite bind_modify, onDisconnect_eq.
  - rewrite bind_get. destruct (awaiting (runtime w) !! i); [|done].
    by rewrite bind_modify, onMessage_resume_world.
  - rewrite bind_get. destruct (intervals (runtime w) !! t); [|done].
    by rewrite sendHeartbeat_eq.
  - by rewrite world_bind, close_eq.
  - by rewrite switchRooms_eq.
  - rewrite world_bind, sendBytes_eq. by destruct (connection (this w)).
Qed.

(** X2: no input ever changes what the constructor computed: the handshake
    headers, the endpoint URL, the room parameters and the heartbeat period
    are the same after any run. *)
Theorem run_keeps_configuration (inputs : list Input) (w : World) :
  configuration (this (world (run inputs w))) = configuration (this w).
Proof.
  revert w. induction inputs as [|i rest IH]; intros w; [done|].
  destruct (run_cons i rest w) as [_ ->]. rewrite IH, step_this.
  destruct i; try done. by destruct (bool_decide _).
Qed.

Lemma close_requests_app (t t' : list Effect) :
  close_requests (t ++ t') = close_requests t ++ close_requests t'.
Proof. apply omap_app. Qed.

Lemma close_requests_resolves (l : list Promise) :
  close_requests (Resolve <$> l) = [].
Proof. induction l; [done|assumption]. Qed.

Lemma sent_resolves (l : list Promise) : sent (Resolve <$> l) = [].
Proof. induction l; [done|assumption]. Qed.

Lemma step_close_requests (i : Input) (w : World) :
  close_requests (trace (step i w)) =
  match i, connection (this w) with
  | CallClose, Some c => [(c, 1000%Z)]
  | _, _ => []
  end.
Proof.
  destruct i as [c|c m|c|i|t| |rid|data]; cbn [step].
  - rewrite onConnect_eq. by destruct (connection (this w)).
  - rewrite bind_get. destruct (bool_decide _); [|by destruct (connection (this w))].
    destruct m; by destruct (connection (this w)).
  - rewrite bind_get. destruct (bool_decide _); [|by destruct (connection (this w))].
    rewrite bind_modify, onDisconnect_eq. unfold trace; cbn [snd].
    cbn. rewrite close_requests_resolves. by destruct (connection (this w)).
  - rewrite bind_get.
    destruct (awaiting (runtime w) !! i) as [d|]; [|by destruct (connection (this w))].
    rewrite bind_modify.
    destruct (deserializeWebSocketMessage d) as [e|dc];
      [by destruct (connection (this w))|].
    rewrite onMessage_resume_decoded. unfold trace at 1; cbn [snd].
    destruct (protoMessageFetchResult dc) as [r|];
      [destruct (needsAck r);
       [rewrite sendAck_eq; unfold trace; cbn [snd on_runtime this]|]|];
      destruct (connection (this w)); try destruct (truthy (logId dc));
      destruct (String.eqb (payloadType dc) "im_enter_room_resp"); reflexivity.
  - rewrite bind_get.
    destruct (intervals (runtime w) !! t); [|by destruct (connection (this w))].
    rewrite sendHeartbeat_eq. by destruct (connection (this w)).
  - rewrite trace_bind, close_eq. by destruct (connection (this w)).
  - rewrite switchRooms_eq. by destruct (connection (this w)).
  - rewrite trace_bind, sendBytes_eq. by destruct (connection (this w)).
Qed.

(** X4: the client asks a connection to close only when [close()] is
    called: in any run there are at most as many close requests as calls
    of [close()], and every one of them carries the code 1000.  Decode
    failures, unknown responses and timer ticks never close anything. *)
Theorem close_only_on_request (inputs : list Input) (w : World) :
  Forall (fun cc => cc.2 = 1000%Z) (close_requests (trace (run inputs w)))
  /\ length (close_requests (trace (run inputs w)))
     <= length (List.filter is_CallClose inputs).
Proof.
  revert w. induction inputs as [|i rest IH]; intros w.
  - split; [constructor|done].
  - destruct (run_cons i rest w) as [-> _].
    rewrite close_requests_app, step_close_requests.
    destruct (IH (world (step i w))) as [IH1 IH2].
    split.
    + apply Forall_app. split; [|exact IH1].
      destruct i; try constructor.
      destruct (connection (this w)); repeat constructor.
    + rewrite length_app.
      destruct i; cbn [List.filter is_CallClose length app]; try lia.
      destruct (connection (this w)); cbn [length]; lia.
Qed.

Lemma constructor_consistent
    (wsUrl : string) (cookieJar : CookieJar) (params : WebSocketParams)
    (hdrs : option (gmap string string)) (opts : RequestOptions) (ms : option Z) :
  consistent (world (constructor wsUrl cookieJar params hdrs opts ms)).
Proof.
  unfold consistent, constructor, world. cbn. repeat split; try done.
  intros t [x Hx]. by rewrite lookup_empty in Hx.
Qed.

Lemma step_consistent (i : Input) (w : World) :
  consistent w -> consistent (world (step i w)).
Proof.
  intros Hw. pose proof Hw as (Hhandles & Hheld & Hfresh & Hbound & Hpending).
  destruct i as [c|c m|c|i|t| |rid|data]; cbn [step].
  - rewrite onConnect_eq. unfold consistent, world. cbn. repeat split; try done.
    + intros t [= <-]. apply lookup_insert_eq.
    + intros t [x Hx].
      destruct (decide (nextTimeout (runtime w) = t)) as [<-|Hne]; [lia|].
      rewrite lookup_insert_ne in Hx by done.
      specialize (Hfresh t (ex_intro _ x Hx)). lia.
    + intros c' [= <-]. now left.
  - rewrite bind_get. destruct (bool_decide _); [|exact Hw].
    destruct m; exact Hw.
  - rewrite bind_get. destruct (bool_decide _); [|exact Hw].
    rewrite bind_modify, onDisconnect_eq. unfold consistent, world.
    cbn [fst snd this on_runtime].
    destruct (pingInterval (this w)) as [t0|]; cbn; repeat split; try done;
      intros t [x Hx]; apply Hfresh.
    destruct (decide (t0 = t)) as [<-|Hne].
    + by rewrite lookup_delete_eq in Hx.
    + rewrite lookup_delete_ne in Hx by done. by exists x.
  - rewrite bind_get. destruct (awaiting (runtime w) !! i); [|exact Hw].
    rewrite bind_modify, onMessage_resume_world. exact Hw.
  - rewrite bind_get. destruct (intervals (runtime w) !! t); [|exact Hw].
    rewrite sendHeartbeat_eq. exact Hw.
  - rewrite world_bind, close_eq. unfold consistent, world. cbn.
    repeat split; try done; try apply Hhandles.
    apply Forall_app. split.
    + eapply Forall_impl; [exact Hpending|]. cbn. lia.
    + repeat constructor.
  - rewrite switchRooms_eq. exact Hw.
  - rewrite world_bind, sendBytes_eq.
    destruct (connection (this w)); exact Hw.
Qed.

Lemma run_consistent (inputs : list Input) (w : World) :
  consistent w -> consistent (world (run inputs w)).
Proof.
  revert w. induction inputs as [|i rest IH]; intros w Hw; [exact Hw|].
  destruct (run_cons i rest w) as [_ ->]. by apply IH, step_consistent.
Qed.

Lemma run_period (inputs : list Input) (w : World) :
  webSocketPingIntervalMs (this (world (run inputs w)))
  = webSocketPingIntervalMs (this w).
Proof.
  revert w. induction inputs as [|i rest IH]; intros w; [done|].
  destruct (run_cons i rest w) as [_ ->]. rewrite IH, step_this.
  destruct i; try done. by destruct (bool_decide _).
Qed.

(** X1: whatever happens to a client after its construction, it holds a
    connection handle exactly when it holds a timer handle; the timer it
    holds is active, with the period Node gives the configured value (that
    value when it lies between 1 and 2^31 - 1 ms, and 1 ms otherwise); and
    the connection it holds is one on which its message and close handlers
    are bound. *)
Theorem session_keeps_handles_consistent
    (wsUrl : string) (cookieJar : CookieJar) (params : WebSocketParams)
    (hdrs : option (gmap string string)) (opts : RequestOptions) (ms : option Z)
    (inputs : list Input) :
  let w := world (run inputs
                    (world (constructor wsUrl cookieJar params hdrs opts ms))) in
  let configured := match ms with Some v => v | None => 10000%Z end in
  (connection (this w) = None <-> pingInterval (this w) = None)
  /\ (forall t, pingInterval (this w) = Some t ->
        intervals (runtime w) !! t
        = Some (if ((1 <=? configured) && (configured <=? 2147483647))%Z
                then configured else 1%Z))
  /\ (forall c, connection (this w) = Some c -> In c (bound (runtime w))).
Proof.
  intros w configured.
  assert (Hw : consistent w) by apply run_consistent, constructor_consistent.
  destruct Hw as (Hhandles & Hheld & _ & Hbound & _).
  split; [exact Hhandles|]. split; [|exact Hbound].
  intros t Ht. rewrite (Hheld t Ht).
  assert (Hms : webSocketPingIntervalMs (this w) = configured).
  { unfold w. rewrite run_period. by destruct ms. }
  by rewrite Hms.
Qed.

Lemma In_delete {A} (x : A) (i : nat) (l : list A) :
  In x (delete i l) -> In x l.
Proof.
  intros Hx. apply list_elem_of_In. apply list_elem_of_In in Hx.
  exact (elem_of_sublist _ _ _ Hx (sublist_delete l i)).
Qed.

(** Which decodes can be pending after one input. *)
Lemma step_awaiting (i : Input) (w : World) (binaryData : bytes) :
  In binaryData (awaiting (runtime (world (step i w)))) ->
  In binaryData (awaiting (runtime w))
  \/ exists c, i = ConnMessage c (BinaryMessage binaryData).
Proof.
  destruct i as [c|c m|c|i|t| |rid|data]; cbn [step].
  - rewrite onConnect_eq. auto.
  - rewrite bind_get. destruct (bool_decide _); [|auto].
    destruct m as [s|bd]; [auto|].
    unfold_handlers. cbn. intros Hin. apply in_app_or in Hin as [Hin|[<-|[]]]; eauto.
  - rewrite bind_get. destruct (bool_decide _); [|auto].
    rewrite bind_modify, onDisconnect_eq. unfold world. cbn [fst snd this on_runtime].
    destruct (pingInterval (this w)); auto.
  - rewrite bind_get. destruct (awaiting (runtime w) !! i); [|auto].
    rewrite bind_modify, onMessage_resume_world. cbn. intros Hin.
    left. eapply In_delete, Hin.
  - rewrite bind_get. destruct (intervals (runtime w) !! t); [|auto].
    rewrite sendHeartbeat_eq. auto.
  - rewrite world_bind, close_eq. auto.
  - rewrite switchRooms_eq. auto.
  - rewrite world_bind, sendBytes_eq. destruct (connection (this w)); auto.
Qed.

(** What one input transmits. *)
Lemma step_sent (i : Input) (w : World) :
  sent (trace (step i w)) =
  match connection (this w) with
  | None => []
  | Some c =>
      match i with
      | TransportConnect _ =>
          [(c, createBaseWebcastPushFrame
                 (heartbeatFrame (room_id (webSocketParams (this w)))))]
      | IntervalFired t =>
          match intervals (runtime w) !! t with
          | Some _ =>
              [(c, createBaseWebcastPushFrame
                     (heartbeatFrame (room_id (webSocketParams (this w)))))]
          | None => []
          end
      | DecodeSettled n =>
          match awaiting (runtime w) !! n with
          | Some binaryData =>
              match deserializeWebSocketMessage binaryData with
              | inr d =>
                  match protoMessageFetchResult d with
                  | Some r =>
                      if needsAck r && truthy (logId d)
                      then [(c, createBaseWebcastPushFrame
                                  (ackFrame (logId d) (internalExt r)))]
                      else []
                  | None => []
                  end
              | inl _ => []
              end
          | None => []
          end
      | CallSwitchRooms roomId =>
          [(c, createBaseWebcastPushFrame (enterRoomFrame roomId))]
      | CallSendBytes data => [(c, data)]
      | _ => []
      end
  end.
Proof.
  destruct i as [c|c m|c|i|t| |rid|data]; cbn [step].
  - rewrite onConnect_eq. by destruct (connection (this w)).
  - rewrite bind_get. destruct (bool_decide _); [|by destruct (connection (this w))].
    destruct m; by destruct (connection (this w)).
  - rewrite bind_get. destruct (bool_decide _); [|by destruct (connection (this w))].
    rewrite bind_modify, onDisconnect_eq. unfold trace; cbn [snd].
    cbn. rewrite sent_resolves. by destruct (connection (this w)).
  - rewrite bind_get.
    destruct (awaiting (runtime w) !! i) as [d|]; [|by destruct (connection (this w))].
    rewrite bind_modify.
    destruct (deserializeWebSocketMessage d) as [e|dc];
      [by destruct (connection (this w))|].
    rewrite onMessage_resume_decoded. unfold trace at 1; cbn [snd].
    destruct (protoMessageFetchResult dc) as [r|];
      [destruct (needsAck r);
       [rewrite sendAck_eq; unfold trace; cbn [snd on_runtime this]|]|];
      destruct (connection (this w)); try destruct (truthy (logId dc));
      destruct (String.eqb (payloadType dc) "im_enter_room_resp"); reflexivity.
  - rewrite bind_get.
    destruct (intervals (runtime w) !! t); [|by destruct (connection (this w))].
    rewrite sendHeartbeat_eq. by destruct (connection (this w)).
  - rewrite trace_bind, close_eq. by destruct (connection (this w)).
  - rewrite switchRooms_eq. by destruct (connection (this w)).
  - rewrite trace_bind, sendBytes_eq. by destruct (connection (this w)).
Qed.

Lemma accounted_later (i : Input) (rest : list Input) (w : World)
    (cd : WebSocketConnection * bytes) :
  accounted (world (step i w)) rest cd -> accounted w (i :: rest) cd.
Proof.
  intros [Hconn Hdata]. split.
  - destruct Hconn as [Hc|Hin]; [|right; now right].
    rewrite step_this in Hc. destruct i; try (left; exact Hc).
    + right. left. cbn in Hc. congruence.
    + destruct (bool_decide _); [discriminate|left; exact Hc].
  - assert (Hroom : webSocketParams (this (world (step i w)))
                    = webSocketParams (this w)).
    { rewrite step_this. destruct i; try done. by destruct (bool_decide _). }
    rewrite Hroom in Hdata.
    destruct Hdata as [Hhb|[(bd & d & r & Hfrom & Hrest)|[(rid & Hin & Hd)|Hin]]].
    + left. exact Hhb.
    + right. left. exists bd, d, r. split; [|exact Hrest].
      destruct Hfrom as [Haw|[c Hin]].
      * apply step_awaiting in Haw as [Haw|[c ->]]; [left; exact Haw|].
        right. exists c. now left.
      * right. exists c. now right.
    + right. right. left. exists rid. split; [now right|exact Hd].
    + right. right. right. now right.
Qed.

Lemma run_accounted (inputs : list Input) (w : World) :
  Forall (accounted w inputs) (sent (trace (run inputs w))).
Proof.
  revert w. induction inputs as [|i rest IH]; intros w; [constructor|].
  destruct (run_cons i rest w) as [-> _]. rewrite sent_app.
  apply Forall_app. split.
  - rewrite step_sent. destruct (connection (this w)) as [c|] eqn:Hc; [|constructor].
    destruct i as [c'|c' m|c'|n|t| |rid|data]; try constructor.
    + split; [left; exact Hc|left; reflexivity].
    + constructor.
    + destruct (awaiting (runtime w) !! n) as [bd|] eqn:Hn; [|constructor].
      destruct (deserializeWebSocketMessage bd) as [e|d] eqn:Hd; [constructor|].
      destruct (protoMessageFetchResult d) as [r|] eqn:Hr; [|constructor].
      destruct (needsAck r) eqn:Hack, (truthy (logId d)) eqn:Hl; try constructor.
      * split; [left; exact Hc|]. right. left. exists bd, d, r.
        repeat split; try done. left.
        apply list_elem_of_In. eapply list_elem_of_lookup_2, Hn.
      * constructor.
    + destruct (intervals (runtime w) !! t); constructor; [|constructor].
      split; [left; exact Hc|left; reflexivity].
    + split; [left; exact Hc|]. right. right. left. exists rid. split; [now left|done].
    + constructor.
    + split; [left; exact Hc|]. right. right. right. now left.
    + constructor.
  - eapply Forall_impl; [apply IH|]. intros cd. apply accounted_later.
Qed.

(** X3: everything a client ever transmits is accounted for.  In any run
    that starts from the constructor, each byte sequence handed to a
    connection goes to a connection object the transport delivered with a
    'connect' event during the run, and is either a heartbeat for the
    constructor's room, the ack of a binary message that was received, whose
    decode carries a fetch result with needsAck and a non-empty logId, a
    room-enter frame for a room passed to [switchRooms], or bytes passed to
    [sendBytes]. *)
Theorem session_sends_only_accounted_frames
    (wsUrl : string) (cookieJar : CookieJar) (params : WebSocketParams)
    (hdrs : option (gmap string string)) (opts : RequestOptions) (ms : option Z)
    (inputs : list Input) :
  Forall
    (fun cd : WebSocketConnection * bytes =>
       In (TransportConnect cd.1) inputs
       /\ (cd.2 = createBaseWebcastPushFrame (heartbeatFrame (room_id params))
           \/ (exists c binaryData d r,
                 In (ConnMessage c (BinaryMessage binaryData)) inputs
                 /\ deserializeWebSocketMessage binaryData = inr d
                 /\ protoMessageFetchResult d = Some r
                 /\ needsAck r = true
                 /\ truthy (logId d) = true
                 /\ cd.2 = createBaseWebcastPushFrame
                             (ackFrame (logId d) (internalExt r)))
           \/ (exists roomId,
                 In (CallSwitchRooms roomId) inputs
                 /\ cd.2 = createBaseWebcastPushFrame (enterRoomFrame roomId))
           \/ In (CallSendBytes cd.2) inputs))
    (sent (trace (run inputs
                    (world (constructor wsUrl cookieJar params hdrs opts ms))))).
Proof.
  eapply Forall_impl; [apply run_accounted|].
  intros cd [Hconn Hdata]. cbn in Hconn, Hdata. split.
  - destruct Hconn as [Hc|Hin]; [discriminate|exact Hin].
  - destruct Hdata as [Hhb|[(bd & d & r & Hfrom & Hrest)|[Hsw|Hsb]]]; auto.
    right. left. destruct Hfrom as [[]|[c Hin]]. exists c, bd, d, r. auto.
Qed.

Lemma ticks_sent (t : Timeout) (ms : Z) (c : WebSocketConnection)
    (k : nat) (w : World) :
  intervals (runtime w) !! t = Some ms ->
  connection (this w) = Some c ->
  sent (trace (run (repeat (IntervalFired t) k) w)) =
  repeat (c, createBaseWebcastPushFrame
               (heartbeatFrame (room_id (webSocketParams (this w))))) k.
Proof.
  intros Ht Hc. induction k as [|k IH]; [done|].
  cbn [repeat]. destruct (run_cons (IntervalFired t) (repeat (IntervalFired t) k) w)
    as [-> _].
  rewrite (interval_tick_sends_heartbeat t ms c w Ht Hc).
  unfold world at 1, trace at 1; cbn [fst snd]. rewrite sent_app, IH. reflexivity.
Qed.

(** X6: the heartbeat cadence as the code has it.  When the transport
    connects, the heartbeat [onConnect] attempts goes to the handle held
    before the call - nowhere for a client that held none - and from then on
    every tick of the timer [onConnect] started sends exactly one heartbeat,
    for the constructor's room, on the new connection. *)
Theorem one_heartbeat_per_tick (c : WebSocketConnection) (k : nat) (w : World) :
  sent (trace (run (TransportConnect c
                      :: repeat (IntervalFired (nextTimeout (runtime w))) k) w)) =
  match connection (this w) with
  | Some c0 =>
      [(c0, createBaseWebcastPushFrame
              (heartbeatFrame (room_id (webSocketParams (this w)))))]
  | None => []
  end
  ++ repeat (c, createBaseWebcastPushFrame
                  (heartbeatFrame (room_id (webSocketParams (this w))))) k.
Proof.
  destruct (run_cons (TransportConnect c)
              (repeat (IntervalFired (nextTimeout (runtime w))) k) w) as [-> _].
  rewrite sent_app. f_equal.
  - rewrite step_sent. by destruct (connection (this w)).
  - cbn [step]. rewrite onConnect_eq. unfold world; cbn [fst snd].
    erewrite ticks_sent; [reflexivity| |reflexivity].
    cbn. apply lookup_insert_eq.
Qed.

(** X7: handling an inbound message leaves the client as it found it and
    transmits at most one frame, so the way a message is handled never
    depends on the messages handled before it. *)
Theorem onMessage_leaves_no_trace_in_state
    (message message' : WebSocketMessage) (w : World) :
  world (onMessage message w) = w
  /\ length (sent (trace (onMessage message w))) <= 1
  /\ onMessage message' (world (onMessage message w)) = onMessage message' w.
Proof.
  assert (Hw : world (onMessage message w) = w).
  { destruct message as [s|bd]; [reflexivity|].
    unfold onMessage. rewrite world_bind. apply onMessage_resume_world. }
  split; [exact Hw|]. split; [|by rewrite Hw].
  destruct message as [s|bd]; [cbn; lia|].
  unfold onMessage. rewrite trace_bind, sent_app.
  change (sent (trace (onMessage_begin (BinaryMessage bd) w))) with
    (@nil (WebSocketConnection * bytes)).
  change (world (onMessage_begin (BinaryMessage bd) w)) with w.
  change (result (onMessage_begin (BinaryMessage bd) w)) with (Some bd).
  cbn [app].
  destruct (deserializeWebSocketMessage bd) as [e|d]; [cbn; lia|].
  rewrite onMessage_resume_decoded. unfold trace at 1; cbn [snd].
  destruct (protoMessageFetchResult d) as [r|];
    [destruct (needsAck r);
     [rewrite sendAck_eq; unfold trace; cbn [snd];
      destruct (connection (this w)); [destruct (truthy (logId d))|]|]|];
    destruct (String.eqb (payloadType d) "im_enter_room_resp"); cbn; lia.
Qed.

(** X11: byte sequences passed to [sendBytes] while the connection handle
    is set reach that connection one for one, in call order, and leave the
    client unchanged. *)
Theorem sendBytes_in_call_order
    (c : WebSocketConnection) (payloads : list bytes) (w : World) :
  connection (this w) = Some c ->
  run (CallSendBytes <$> payloads) w = (tt, w, ConnSendBytes c <$> payloads).
Proof.
  intros Hc. induction payloads as [|data rest IH]; [reflexivity|].
  cbn [fmap list_fmap run]. unfold bind at 1. cbn [step].
  unfold bind at 1. rewrite sendBytes_eq, Hc. cbn. rewrite IH. reflexivity.
Qed.

Lemma step_close_connected (c : WebSocketConnection) (w : World) :
  connection (this w) = Some c ->
  step CallClose w =
  (tt,
   {| this := this w;
      runtime :=
        set_onceClose (onceClose (runtime w) ++ [nextPromise (runtime w)])
          (set_nextPromise (S (nextPromise (runtime w))) (runtime w)) |},
   [ConnClose c 1000]).
Proof. intros Hc. cbn [step]. unfold bind. rewrite close_eq, Hc. reflexivity. Qed.

Lemma run_closes (c : WebSocketConnection) (k : nat) (w : World) :
  connection (this w) = Some c ->
  trace (run (repeat CallClose k) w) = repeat (ConnClose c 1000) k
  /\ this (world (run (repeat CallClose k) w)) = this w
  /\ bound (runtime (world (run (repeat CallClose k) w))) = bound (runtime w)
  /\ onceClose (runtime (world (run (repeat CallClose k) w)))
     = onceClose (runtime w) ++ seq (nextPromise (runtime w)) k.
Proof.
  revert w. induction k as [|k IH]; intros w Hc.
  - cbn. by rewrite app_nil_r.
  - cbn [repeat]. destruct (run_cons CallClose (repeat CallClose k) w) as [-> ->].
    rewrite (step_close_connected c w Hc).
    change (world (?a, ?w', ?t)) with w'. change (trace (?a, ?w', ?t)) with t.
    match goal with |- context [run (repeat CallClose k) ?w'] =>
      destruct (IH w' Hc) as (-> & -> & -> & ->) end.
    cbn. rewrite <- app_assoc. done.
Qed.

(** X12: [close()] called several times on a connected client asks the
    connection to close once per call, and the single close event that
    follows resolves every pending completion, the earlier ones first, in
    call order. *)
Theorem closes_resolve_together
    (c : WebSocketConnection) (k : nat) (w : World) :
  connection (this w) = Some c ->
  In c (bound (runtime w)) ->
  trace (run (repeat CallClose k ++ [ConnClosed c]) w) =
  repeat (ConnClose c 1000) k
    ++ Emit close_event
    :: (Resolve <$> (onceClose (runtime w) ++ seq (nextPromise (runtime w)) k)).
Proof.
  intros Hc Hb.
  destruct (run_app (repeat CallClose k) [ConnClosed c] w) as [-> _].
  destruct (run_closes c k w Hc) as (-> & Hthis & Hbound & Honce).
  f_equal.
  destruct (run_cons (ConnClosed c) [] (world (run (repeat CallClose k) w)))
    as [-> _].
  cbn [run]. unfold ret at 1, trace at 2; cbn [snd]. rewrite app_nil_r.
  cbn [step]. rewrite bind_get, Hbound.
  rewrite bool_decide_eq_true_2 by (by apply list_elem_of_In).
  rewrite bind_modify, onDisconnect_eq. unfold trace; cbn [snd on_runtime runtime].
  cbn. by rewrite Honce.
Qed.

Lemma step_closed_bound (c : WebSocketConnection) (w : World) :
  In c (bound (runtime w)) ->
  step (ConnClosed c) w =
  onDisconnect
    (on_runtime
       (fun r => set_bound (filter (fun c' => c' ≠ c) (bound r)) r) w).
Proof.
  intros Hb. cbn [step]. rewrite bind_get.
  rewrite bool_decide_eq_true_2 by (by apply list_elem_of_In).
  apply bind_modify.
Qed.

(** X9: [onConnect] never cancels the timer of an earlier connect.  If a
    'connect' event arrives while a timer handle is held, that timer keeps
    running after the new connection has closed, although the client then
    holds neither a connection nor a timer handle. *)
Theorem earlier_timer_survives_reconnect
    (wsUrl : string) (cookieJar : CookieJar) (params : WebSocketParams)
    (hdrs : option (gmap string string)) (opts : RequestOptions) (ms : option Z)
    (inputs : list Input) (t0 : Timeout) (c1 : WebSocketConnection) :
  let w := world (run inputs
                    (world (constructor wsUrl cookieJar params hdrs opts ms))) in
  pingInterval (this w) = Some t0 ->
  let w2 := world (run [TransportConnect c1; ConnClosed c1] w) in
  connection (this w2) = None
  /\ pingInterval (this w2) = None
  /\ intervals (runtime w2) !! t0
     = Some (timer_period (webSocketPingIntervalMs (this w))).
Proof.
  intros w Ht0 w2.
  assert (Hw : consistent w) by apply run_consistent, constructor_consistent.
  destruct Hw as (_ & Hheld & Hfresh & _ & _).
  specialize (Hheld t0 Ht0).
  assert (Hlt : t0 < nextTimeout (runtime w)) by (apply Hfresh; eauto).
  unfold w2.
  destruct (run_cons (TransportConnect c1) [ConnClosed c1] w) as [_ ->].
  destruct (run_cons (ConnClosed c1) [] (world (step (TransportConnect c1) w)))
    as [_ ->].
  change (run [] ?x) with (ret tt x). change (world (ret tt ?x)) with x.
  change (step (TransportConnect c1) w) with (onConnect c1 w).
  rewrite onConnect_eq. change (world (?a, ?w', ?t)) with w'.
  rewrite step_closed_bound by (now left).
  rewrite onDisconnect_eq. change (world (?a, ?w', ?t)) with w'.
  cbn. repeat split.
  rewrite lookup_delete_ne by lia. rewrite lookup_insert_ne by lia. exact Hheld.
Qed.

(** X10: [close()] on a client without a connection handle resolves its
    completion at once but leaves the listener it added with [once] in
    place: unless a close event has run it in the meantime, the next close
    event calls the same resolver again. *)
Theorem close_without_connection_leaves_listener (w : World) (later : list Input) :
  connection (this w) = None ->
  let p := result (close w) in
  let w' := world (close w) in
  trace (close w) = [Resolve p]
  /\ In p (onceClose (runtime w'))
  /\ (In (Resolve p) (trace (run later w'))
      \/ precedes (Emit close_event) (Resolve p)
           (trace (onDisconnect (world (run later w'))))).
Proof.
  intros Hc p w'. unfold p, w'. rewrite close_eq, Hc.
  unfold result, world, trace; cbn [fst snd].
  assert (Hreg : In (nextPromise (runtime w))
                   (onceClose (runtime
                      {| this := this w;
                         runtime :=
                           set_onceClose
                             (onceClose (runtime w) ++ [nextPromise (runtime w)])
                             (set_nextPromise (S (nextPromise (runtime w)))
                                (runtime w)) |}))).
  { cbn. apply in_or_app. right. now left. }
  split; [reflexivity|]. split; [exact Hreg|].
  destruct (run_pending later _ _ Hreg) as [Hdone|Hpend]; [left; exact Hdone|].
  right. apply onDisconnect_resolves_pending, Hpend.
Qed.

(** X8: when the caller's headers have no key spelled exactly "Cookie" -
    none at all, or one in another letter case - the handshake headers are
    the caller's headers with the session cookie added under "Cookie". *)
Theorem session_cookie_added_without_exact_key
    (wsUrl : string) (cookieJar : CookieJar) (params : WebSocketParams)
    (hdrs : option (gmap string string)) (opts : RequestOptions) (ms : option Z) :
  match hdrs with Some h => h | None => ∅ end !! "Cookie" = None ->
  wsHeaders (this (world (constructor wsUrl cookieJar params hdrs opts ms)))
  = <[ "Cookie" := getCookieString cookieJar ]>
      match hdrs with Some h => h | None => ∅ end
  /\ size (wsHeaders (this (world (constructor wsUrl cookieJar params hdrs opts ms))))
     = S (size match hdrs with Some h => h | None => ∅ end).
Proof.
  intros Hno.
  assert (Heq : wsHeaders
                  (this (world (constructor wsUrl cookieJar params hdrs opts ms)))
                = <[ "Cookie" := getCookieString cookieJar ]>
                    match hdrs with Some h => h | None => ∅ end).
  { unfold constructor, world; cbn [fst snd this wsHeaders]. unfold headers_literal.
    apply map_eq. intros k. rewrite lookup_union, lookup_insert.
    case_decide as Hk.
    - subst k. by rewrite Hno, lookup_singleton_eq.
    - rewrite lookup_singleton_ne by done.
      by destruct (match hdrs with Some h => h | None => ∅ end !! k). }
  split; [exact Heq|]. rewrite Heq. by apply map_size_insert_None.
Qed.

End Session.

(** ** Concrete instances of the further properties *)

Lemma sendBytes_in_call_order_witness :
  run (CallSendBytes <$> [[x01]; [x02; x03]]) sample_connected
  = (tt, sample_connected, ConnSendBytes 7 <$> [[x01]; [x02; x03]]).
Proof.
  exact (sendBytes_in_call_order 7 [[x01]; [x02; x03]] sample_connected eq_refl).
Defined.

Lemma closes_resolve_together_witness :
  trace (run (repeat CallClose 2 ++ [ConnClosed 7]) sample_connected)
  = repeat (ConnClose 7 1000) 2
      ++ Emit close_event
      :: (Resolve <$> (onceClose (runtime sample_connected)
                         ++ seq (nextPromise (runtime sample_connected)) 2)).
Proof.
  apply (closes_resolve_together 7 2 sample_connected).
  - reflexivity.
  - vm_compute. left. reflexivity.
Defined.

Lemma earlier_timer_survives_reconnect_witness :
  let w := world (run [TransportConnect 7]
                    (world (constructor "wss://example.invalid/im"
                              {| getCookieString := "sid=1" |}
                              sample_params None [] None))) in
  pingInterval (this w) = Some 0
  /\ let w2 := world (run [TransportConnect 8; ConnClosed 8] w) in
     connection (this w2) = None
     /\ pingInterval (this w2) = None
     /\ intervals (runtime w2) !! 0
        = Some (timer_period (webSocketPingIntervalMs (this w))).
Proof.
  intros w.
  assert (H : pingInterval (this w) = Some 0) by reflexivity.
  split; [exact H|].
  exact (earlier_timer_survives_reconnect "wss://example.invalid/im"
           {| getCookieString := "sid=1" |} sample_params None [] None
           [TransportConnect 7] 0 8 H).
Defined.

Lemma close_without_connection_leaves_listener_witness :
  let p := result (close sample_fresh) in
  let w' := world (close sample_fresh) in
  trace (close sample_fresh) = [Resolve p]
  /\ In p (onceClose (runtime w'))
  /\ (In (Resolve p) (trace (run [TransportConnect 7; ConnClosed 7] w'))
      \/ precedes (Emit close_event) (Resolve p)
           (trace (onDisconnect
                     (world (run [TransportConnect 7; ConnClosed 7] w'))))).
Proof.
  exact (close_without_connection_leaves_listener sample_fresh
           [TransportConnect 7; ConnClosed 7] eq_refl).
Defined.

Lemma session_cookie_added_without_exact_key_witness :
  let hdrs : gmap string string := {[ "cookie" := "own=1" ]} in
  let H := wsHeaders
             (this (world (constructor "wss://example.invalid/im"
                             {| getCookieString := "sid=1" |}
                             sample_params (Some hdrs) [] None))) in
  hdrs !! "Cookie" = None
  /\ H = <[ "Cookie" := "sid=1" ]> hdrs
  /\ size H = S (size hdrs).
Proof.
  intros hdrs H.
  assert (Hno : hdrs !! "Cookie" = None) by (vm_compute; reflexivity).
  split; [exact Hno|].
  exact (session_cookie_added_without_exact_key "wss://example.invalid/im"
           {| getCookieString := "sid=1" |} sample_params (Some hdrs) [] None Hno).
Defined.

(** ** Events and completions over whole runs *)

Section Accounting.
Context {codec : Codec} {platform : Platform}.

Lemma emitted_app (t t' : list Effect) :
  emitted (t ++ t') = emitted t ++ emitted t'.
Proof. apply omap_app. Qed.

Lemma emitted_resolves (l : list Promise) : emitted (Resolve <$> l) = [].
Proof. induction l; [done|assumption]. Qed.

(** What one input publishes. *)
Lemma step_emitted (i : Input) (w : World) :
  emitted (trace (step i w)) =
  match i with
  | ConnMessage c m =>
      if bool_decide (c ∈ bound (runtime w))
      then webSocketData m
             :: match m with
                | Utf8Message _ => [unknownResponse m]
                | BinaryMessage _ => []
                end
      else []
  | ConnClosed c =>
      if bool_decide (c ∈ bound (runtime w)) then [close_event] else []
  | DecodeSettled n =>
      match awaiting (runtime w) !! n with
      | Some binaryData =>
          match deserializeWebSocketMessage binaryData with
          | inl err => [messageDecodingFailed err]
          | inr d =>
              match protoMessageFetchResult d with
              | Some r => [protoMessageFetchResult_event r]
              | None => []
              end
              ++ (if String.eqb (payloadType d) "im_enter_room_resp"
                  then [imEnteredRoom d] else [])
          end
      | None => []
      end
  | _ => []
  end.
Proof.
  destruct i as [c|c m|c|i|t| |rid|data]; cbn [step].
  - rewrite onConnect_eq. by destruct (connection (this w)).
  - rewrite bind_get. destruct (bool_decide _); [|done]. by destruct m.
  - rewrite bind_get. destruct (bool_decide _); [|done].
    rewrite bind_modify, onDisconnect_eq. unfold trace; cbn [snd].
    cbn. by rewrite emitted_resolves.
  - rewrite bind_get. destruct (awaiting (runtime w) !! i) as [d|]; [|done].
    rewrite bind_modify.
    destruct (deserializeWebSocketMessage d) as [e|dc]; [done|].
    rewrite onMessage_resume_decoded. unfold trace at 1; cbn [snd].
    destruct (protoMessageFetchResult dc) as [r|];
      [destruct (needsAck r);
       [rewrite sendAck_eq; unfold trace; cbn [snd on_runtime this];
        destruct (connection (this w)); [destruct (truthy (logId dc))|]|]|];
      destruct (String.eqb (payloadType dc) "im_enter_room_resp"); reflexivity.
  - rewrite bind_get. destruct (intervals (runtime w) !! t); [|done].
    rewrite sendHeartbeat_eq. by destruct (connection (this w)).
  - rewrite trace_bind, close_eq. by destruct (connection (this w)).
  - rewrite switchRooms_eq. by destruct (connection (this w)).
  - rewrite trace_bind, sendBytes_eq. by destruct (connection (this w)).
Qed.

Lemma run_with_cons (subscribers : Subscribers) (i : Input)
    (rest : list Input) (w : World) :
  trace (run_with subscribers (i :: rest) w)
  = trace (step_with subscribers i w)
      ++ trace (run_with subscribers rest (world (step_with subscribers i w))).
Proof. cbn [run_with]. by rewrite trace_bind. Qed.

(** With quiet subscribers the event loop is [run]. *)
Lemma run_with_quiet (inputs : list Input) (w : World) :
  run_with quiet inputs w = run inputs w.
Proof.
  revert w. induction inputs as [|i rest IH]; intros w; [reflexivity|].
  cbn [run_with run]. unfold bind.
  assert (Hstep : step_with quiet i w = step i w).
  { destruct i; try reflexivity. cbn [step_with step]. rewrite !bind_get.
    destruct (awaiting (runtime w) !! i); [|reflexivity].
    rewrite !bind_modify. apply onMessage_resume_with_quiet. }
  rewrite Hstep. destruct (step i w) as [[u w1] t1]. by rewrite IH.
Qed.

Lemma step_with_awaiting (subscribers : Subscribers) (i : Input) (w : World)
    (binaryData : bytes) :
  In binaryData (awaiting (runtime (world (step_with subscribers i w)))) ->
  In binaryData (awaiting (runtime w))
  \/ exists c, i = ConnMessage c (BinaryMessage binaryData).
Proof.
  destruct i as [c|c m|c|i|t| |rid|data];
    try exact (step_awaiting _ w binaryData).
  cbn [step_with]. rewrite bind_get.
  destruct (awaiting (runtime w) !! i); [|auto].
  rewrite bind_modify.
  rewrite (proj2 (onMessage_resume_with_sent subscribers _ _)).
  cbn. intros Hin. left. eapply In_delete, Hin.
Qed.

(** What the settling of a decode publishes. *)
Lemma onMessage_resume_with_emitted (subscribers : Subscribers)
    (decoded : Error + DecodedWebcastPushFrame) (w : World) :
  emitted (trace (onMessage_resume_with subscribers decoded w)) =
  match decoded with
  | inl err => [messageDecodingFailed err]
  | inr d =>
      let entered :=
        if String.eqb (payloadType d) "im_enter_room_resp"
        then imEnteredRoom d
               :: match subscribers (imEnteredRoom d) with
                  | Some err => [messageDecodingFailed err]
                  | None => []
                  end
        else [] in
      match protoMessageFetchResult d with
      | Some r =>
          protoMessageFetchResult_event r
            :: match subscribers (protoMessageFetchResult_event r) with
               | Some err => [messageDecodingFailed err]
               | None => entered
               end
      | None => entered
      end
  end.
Proof.
  destruct decoded as [err|d]; [reflexivity|].
  rewrite onMessage_resume_with_decoded. unfold trace at 1; cbn [snd].
  destruct (protoMessageFetchResult d) as [r|];
    [destruct (needsAck r);
     [rewrite sendAck_eq; unfold trace; cbn [snd];
      destruct (connection (this w)); [destruct (truthy (logId d))|]|];
     destruct (subscribers (protoMessageFetchResult_event r))|];
    destruct (String.eqb (payloadType d) "im_enter_room_resp");
    try destruct (subscribers (imEnteredRoom d)); reflexivity.
Qed.

Lemma announced_later (subscribers : Subscribers) (i : Input)
    (rest : list Input) (w : World) (ev : Event) :
  announced subscribers (world (step_with subscribers i w)) rest ev ->
  announced subscribers w (i :: rest) ev.
Proof.
  assert (Hrecv : forall bd,
    In bd (awaiting (runtime (world (step_with subscribers i w))))
    \/ (exists c, In (ConnMessage c (BinaryMessage bd)) rest) ->
    In bd (awaiting (runtime w))
    \/ exists c, In (ConnMessage c (BinaryMessage bd)) (i :: rest)).
  { intros bd [Haw|[c Hin]].
    - apply step_with_awaiting in Haw as [Haw|[c ->]]; [left; exact Haw|].
      right. exists c. now left.
    - right. exists c. now right. }
  destruct ev as [c| |err|m|r|m|d]; cbn [announced].
  - done.
  - intros [c Hin]. exists c. now right.
  - intros (bd & Hfrom & Hd). exists bd. auto.
  - intros [Hs [c Hin]]. split; [exact Hs|]. exists c. now right.
  - intros (bd & d & Hfrom & Hd). exists bd, d. auto.
  - intros [c Hin]. exists c. now right.
  - intros (bd & Hfrom & Hd). exists bd. auto.
Qed.

Lemma step_announced (subscribers : Subscribers) (i : Input)
    (rest : list Input) (w : World) :
  Forall (announced subscribers w (i :: rest))
    (emitted (trace (step_with subscribers i w))).
Proof.
  destruct i as [c|c m|c|n|t| |rid|data];
    try (change (step_with subscribers ?i w) with (step i w);
         rewrite step_emitted).
  - constructor.
  - destruct (bool_decide _); [|constructor].
    constructor; [exists c; now left|].
    destruct m as [s|bd]; constructor; [|constructor].
    split; [eauto|]. exists c. now left.
  - destruct (bool_decide _); constructor; [|constructor]. exists c. now left.
  - cbn [step_with]. rewrite bind_get.
    destruct (awaiting (runtime w) !! n) as [bd|] eqn:Hn; [|constructor].
    rewrite bind_modify, onMessage_resume_with_emitted.
    assert (Hin : In bd (awaiting (runtime w))).
    { apply list_elem_of_In. eapply list_elem_of_lookup_2, Hn. }
    destruct (deserializeWebSocketMessage bd) as [e|d] eqn:Hd.
    { constructor; [|constructor]. exists bd. auto. }
    assert (Hentered : Forall (announced subscribers w (DecodeSettled n :: rest))
      (if String.eqb (payloadType d) "im_enter_room_resp"
       then imEnteredRoom d
              :: match subscribers (imEnteredRoom d) with
                 | Some err => [messageDecodingFailed err]
                 | None => []
                 end
       else [])).
    { destruct (String.eqb (payloadType d) "im_enter_room_resp") eqn:He;
        [|constructor].
      apply String.eqb_eq in He.
      constructor; [exists bd; auto|].
      destruct (subscribers (imEnteredRoom d)) as [err|] eqn:Hs; constructor;
        [|constructor].
      exists bd. split; [auto|]. right. exists d. auto. }
    cbn zeta.
    destruct (protoMessageFetchResult d) as [r|] eqn:Hr; [|exact Hentered].
    constructor; [exists bd, d; auto|].
    destruct (subscribers (protoMessageFetchResult_event r)) as [err|] eqn:Hs;
      [|exact Hentered].
    constructor; [|constructor].
    exists bd. split; [auto|]. right. exists d. split; [done|]. left. eauto.
  - constructor.
  - constructor.
  - constructor.
  - constructor.
Qed.

Lemma run_announced (subscribers : Subscribers) (inputs : list Input)
    (w : World) :
  Forall (announced subscribers w inputs)
    (emitted (trace (run_with subscribers inputs w))).
Proof.
  revert w. induction inputs as [|i rest IH]; intros w; [constructor|].
  rewrite run_with_cons, emitted_app.
  apply Forall_app. split; [apply step_announced|].
  eapply Forall_impl; [apply IH|]. intros ev. apply announced_later.
Qed.

(** X13: no event is published without cause, whatever the subscribers do.
    In any run that starts from the constructor, a raw-data or
    unknown-response event carries a message some connection delivered (a
    text message for the latter), a close event follows a connection's
    close, and a fetch-result or entered-room event carries the result of
    decoding a binary message that was received.  A decoding-failed event
    belongs to a received binary message too: it carries the error of its
    failed decode, or what a subscriber threw when the fetch-result or
    entered-room event of its decoded container was delivered.  The class
    never publishes 'connect' itself. *)
Theorem session_publishes_only_announced_events
    (subscribers : Subscribers)
    (wsUrl : string) (cookieJar : CookieJar) (params : WebSocketParams)
    (hdrs : option (gmap string string)) (opts : RequestOptions) (ms : option Z)
    (inputs : list Input) :
  Forall
    (fun ev =>
       match ev with
       | connect _ => False
       | close_event => exists c, In (ConnClosed c) inputs
       | webSocketData m => exists c, In (ConnMessage c m) inputs
       | unknownResponse m =>
           (exists s, m = Utf8Message s) /\ exists c, In (ConnMessage c m) inputs
       | messageDecodingFailed err =>
           exists c binaryData,
             In (ConnMessage c (BinaryMessage binaryData)) inputs
             /\ (deserializeWebSocketMessage binaryData = inl err
                 \/ exists d,
                      deserializeWebSocketMessage binaryData = inr d
                      /\ ((exists r,
                             protoMessageFetchResult d = Some r
                             /\ subscribers (protoMessageFetchResult_event r)
                                = Some err)
                          \/ (payloadType d = "im_enter_room_resp"
                              /\ subscribers (imEnteredRoom d) = Some err)))
       | protoMessageFetchResult_event r =>
           exists c binaryData d,
             In (ConnMessage c (BinaryMessage binaryData)) inputs
             /\ deserializeWebSocketMessage binaryData = inr d
             /\ protoMessageFetchResult d = Some r
       | imEnteredRoom d =>
           exists c binaryData,
             In (ConnMessage c (BinaryMessage binaryData)) inputs
             /\ deserializeWebSocketMessage binaryData = inr d
             /\ payloadType d = "im_enter_room_resp"
       end)
    (emitted (trace (run_with subscribers inputs
                       (world (constructor wsUrl cookieJar params hdrs opts ms))))).
Proof.
  eapply Forall_impl; [apply run_announced|].
  intros [c| |err|m|r|m|d]; cbn [announced]; try done.
  - intros (bd & [[]|[c Hin]] & Hd). eauto.
  - intros (bd & d & [[]|[c Hin]] & Hd). eauto.
  - intros (bd & [[]|[c Hin]] & Hd). eauto.
Qed.

Lemma resolutions_app (p : Promise) (t t' : list Effect) :
  resolutions p (t ++ t') = resolutions p t + resolutions p t'.
Proof. unfold resolutions. by rewrite List.filter_app, length_app. Qed.

Lemma resolutions_resolves (p : Promise) (l : list Promise) :
  resolutions p (Resolve <$> l)
  = length (List.filter (fun q => Nat.eqb q p) l).
Proof.
  unfold resolutions. induction l as [|q l IH]; [done|].
  cbn. destruct (Nat.eqb q p); cbn; by rewrite IH.
Qed.

Lemma resolutions_none (p : Promise) (t : list Effect) :
  (forall q, ~ In (Resolve q) t) -> resolutions p t = 0.
Proof.
  unfold resolutions. induction t as [|e t IH]; intros Hno; [done|].
  cbn. destruct e; try (apply IH; intros q Hq; apply (Hno q); now right).
  exfalso. apply (Hno p0). now left.
Qed.

(** One input calls the resolver of [p] only by taking [p] off the list of
    registered listeners. *)
Lemma step_resolutions (i : Input) (w : World) (p : Promise) :
  p < nextPromise (runtime w) ->
  resolutions p (trace (step i w))
    + length (List.filter (fun q => Nat.eqb q p)
                (onceClose (runtime (world (step i w)))))
  <= length (List.filter (fun q => Nat.eqb q p) (onceClose (runtime w)))
  /\ p < nextPromise (runtime (world (step i w))).
Proof.
  intros Hp. split; [|apply (step_resolves i w p Hp)].
  destruct i as [c|c m|c|i|t| |rid|data]; cbn [step].
  - rewrite onConnect_eq. unfold world, trace; cbn [fst snd].
    rewrite resolutions_none; [done|].
    destruct (connection (this w)); cbn; intuition discriminate.
  - rewrite bind_get. destruct (bool_decide _); [|done]. by destruct m.
  - rewrite bind_get. destruct (bool_decide _); [|done].
    rewrite bind_modify, onDisconnect_eq. unfold world, trace; cbn [fst snd].
    change (resolutions p (Emit close_event :: ?t)) with (resolutions p t).
    rewrite resolutions_resolves. cbn [on_runtime runtime onceClose].
    destruct (pingInterval (this w)); cbn; lia.
  - rewrite bind_get. destruct (awaiting (runtime w) !! i) as [d|]; [|done].
    rewrite bind_modify, onMessage_resume_world.
    rewrite resolutions_none; [done|].
    destruct (deserializeWebSocketMessage d) as [e|dc];
      [cbn; intuition discriminate|].
    rewrite onMessage_resume_decoded. unfold trace at 1; cbn [snd].
    destruct (protoMessageFetchResult dc) as [r|];
      [destruct (needsAck r);
       [rewrite sendAck_eq; unfold trace; cbn [snd on_runtime this];
        destruct (connection (this w)); [destruct (truthy (logId dc))|]|]|];
      destruct (String.eqb (payloadType dc) "im_enter_room_resp");
      cbn; intuition discriminate.
  - rewrite bind_get. destruct (intervals (runtime w) !! t); [|done].
    rewrite sendHeartbeat_eq. unfold world, trace; cbn [fst snd].
    rewrite resolutions_none; [done|].
    destruct (connection (this w)); cbn; intuition discriminate.
  - unfold bind. rewrite close_eq.
    unfold world, trace, ret; cbn [fst snd].
    cbn [runtime onceClose set_onceClose set_nextPromise].
    rewrite app_nil_r, List.filter_app, length_app. cbn [List.filter].
    assert (Hne : Nat.eqb (nextPromise (runtime w)) p = false)
      by (apply Nat.eqb_neq; lia).
    rewrite Hne. unfold resolutions.
    destruct (connection (this w)); cbn; rewrite ?Hne; cbn;
      by rewrite Nat.add_0_r.
  - rewrite switchRooms_eq. unfold world, trace; cbn [fst snd].
    rewrite resolutions_none; [done|].
    destruct (connection (this w)); cbn; intuition discriminate.
  - rewrite trace_bind, world_bind, sendBytes_eq.
    destruct (connection (this w)); cbn; lia.
Qed.

Lemma run_resolutions (inputs : list Input) (w : World) (p : Promise) :
  p < nextPromise (runtime w) ->
  resolutions p (trace (run inputs w))
  <= length (List.filter (fun q => Nat.eqb q p) (onceClose (runtime w))).
Proof.
  revert w. induction inputs as [|i rest IH]; intros w Hp; [cbn; lia|].
  destruct (run_cons i rest w) as [-> _]. rewrite resolutions_app.
  destruct (step_resolutions i w p Hp) as [Hle Hp'].
  specialize (IH _ Hp'). lia.
Qed.

Lemma registered_once (l : list Promise) (p : Promise) :
  Forall (fun q => q < p) l ->
  length (List.filter (fun q => Nat.eqb q p) (l ++ [p])) = 1.
Proof.
  intros Hl. induction Hl as [|q l Hq _ IH].
  - cbn. by rewrite Nat.eqb_refl.
  - cbn. replace (Nat.eqb q p) with false; [exact IH|].
    symmetry. apply Nat.eqb_neq. lia.
Qed.

(** X14: no completion is resolved twice by close events.  For a client in
    any state reached from its constructor, the resolver of the completion
    [close()] returns is called at most once overall when the client was
    connected, and at most twice - the immediate call and one by the next
    close event - when it was not. *)
Theorem completion_resolved_at_most_once
    (wsUrl : string) (cookieJar : CookieJar) (params : WebSocketParams)
    (hdrs : option (gmap string string)) (opts : RequestOptions) (ms : option Z)
    (before later : list Input) :
  let w := world (run before
                    (world (constructor wsUrl cookieJar params hdrs opts ms))) in
  let p := result (close w) in
  resolutions p (trace (close w) ++ trace (run later (world (close w))))
  <= match connection (this w) with Some _ => 1 | None => 2 end.
Proof.
  intros w p.
  assert (Hw : consistent w) by apply run_consistent, constructor_consistent.
  destruct Hw as (_ & _ & _ & _ & Hpending).
  rewrite resolutions_app. unfold p. rewrite close_eq.
  unfold result, world at 1, trace at 1; cbn [fst snd].
  match goal with |- context [run later ?w'] =>
    pose proof (run_resolutions later w' (nextPromise (runtime w))) as Hle end.
  cbn [runtime nextPromise set_onceClose set_nextPromise onceClose] in Hle.
  rewrite (registered_once _ _ Hpending) in Hle. specialize (Hle ltac:(lia)).
  destruct (connection (this w)); cbn; rewrite ?Nat.eqb_refl; cbn; lia.
Qed.

(** X5: a client that holds no connection handle - before the first
    'connect', or after a close event - hands nothing to the transport until
    the transport connects again: timer ticks, [switchRooms], [sendBytes] and
    acks of late decodes send no bytes, [close()] requests no close, and the
    handle stays null. *)
Theorem silent_while_disconnected (inputs : list Input) (w : World) :
  connection (this w) = None ->
  forallb (fun i => negb (is_TransportConnect i)) inputs = true ->
  sent (trace (run inputs w)) = []
  /\ close_requests (trace (run inputs w)) = []
  /\ connection (this (world (run inputs w))) = None.
Proof.
  intros Hc Hin. split; [by apply run_disconnected_sends_nothing|].
  revert w Hc. induction inputs as [|i rest IH]; intros w Hc; [done|].
  cbn [forallb] in Hin. apply andb_prop in Hin as [Hi Hrest].
  apply negb_true_iff in Hi.
  destruct (run_cons i rest w) as [-> ->].
  destruct (step_disconnected i w Hc Hi) as [_ Hc'].
  destruct (IH Hrest _ Hc') as [Hclose Hnone].
  rewrite close_requests_app, step_close_requests, Hclose, Hc.
  split; [by destruct i|exact Hnone].
Qed.

End Accounting.

Lemma silent_while_disconnected_witness :
  let w := world (run [TransportConnect 7; ConnClosed 7] sample_fresh) in
  let late := [IntervalFired 0; CallSwitchRooms "456"; CallSendBytes [x01];
               ConnMessage 7 (BinaryMessage [x01]); CallClose] in
  sent (trace (run late w)) = []
  /\ close_requests (trace (run late w)) = []
  /\ connection (this (world (run late w))) = None.
Proof.
  exact (silent_while_disconnected
           [IntervalFired 0; CallSwitchRooms "456"; CallSendBytes [x01];
            ConnMessage 7 (BinaryMessage [x01]); CallClose]
           (world (run [TransportConnect 7; ConnClosed 7] sample_fresh))
           eq_refl eq_refl).
Defined.
